(** * Budget planner: allocation, forecast and state codec

    A shallow embedding of [src/app/app.component.ts] (the [AppComponent]
    class of the budget planner) and the properties its specification
    states about it.

    Number model.  A JavaScript number is an IEEE-754 double.  The finite
    ones are modelled by exact rationals ([Q]); [NaN] and the two infinities
    are separate constructors of [number], because the code tests for them
    ([Number.isFinite]).  Arithmetic on finite numbers is therefore exact:
    the binary rounding error of [+], [*] and [/] and overflow to an
    infinity are outside the model.  [Math.round] is modelled exactly
    (floor of the argument plus one half).

    Strings are sequences of code units below 256.

    Methods of the component mutate [this]; they are modelled as functions
    from the component to an [outcome] that carries the component after the
    call, and records whether the call returned or threw.  [persistState]
    only talks to [localStorage] and the chart canvas and leaves every field
    unchanged, so it is elided. *)

From Stdlib Require Import QArith Qround Qabs Qpower Lqa ZArith Lia.
From Stdlib Require Import String Ascii List Bool DecimalString.
From stdpp Require Import base list.

Local Open Scope Q_scope.

(** ** JavaScript numbers and [Math] *)

Module Js.

Inductive number : Type :=
| Fin (q : Q)
| NaN
| PosInf
| NegInf.

(** The argument type [string | number] of the update methods. *)
Inductive raw : Type :=
| RNum (n : number)
| RStr (s : string).

Definition Qltb (a b : Q) : bool := negb (Qle_bool b a).

Definition Math_max (a b : Q) : Q := if Qle_bool a b then b else a.
Definition Math_min (a b : Q) : Q := if Qle_bool a b then a else b.

(** [Math.round]: the integer nearest to [x], ties towards plus infinity. *)
Definition Math_round (x : Q) : Q := inject_Z (Qfloor (x + (1 # 2))).

(** *** [Number.parseFloat]

    Leading white space is skipped, then the longest prefix that is a
    [StrDecimalLiteral] is read: an optional sign, then either [Infinity]
    or digits with an optional fraction and an optional exponent.  What
    follows the literal is ignored.  Without such a prefix the result is
    [NaN]. *)

Definition isWhiteSpace (c : ascii) : bool :=
  let n := nat_of_ascii c in
  ((9 <=? n)%nat && (n <=? 13)%nat) || (n =? 32)%nat || (n =? 160)%nat.

Definition isDigit (c : ascii) : bool :=
  let n := nat_of_ascii c in (48 <=? n)%nat && (n <=? 57)%nat.

Definition digitValue (c : ascii) : Z := Z.of_nat (nat_of_ascii c) - 48.

Fixpoint trimStart (s : string) : string :=
  match s with
  | String c s' => if isWhiteSpace c then trimStart s' else s
  | EmptyString => s
  end.

(** [String.prototype.trim] *)
Fixpoint trimEnd (s : string) : string :=
  match s with
  | String c s' =>
      match trimEnd s' with
      | EmptyString => if isWhiteSpace c then EmptyString else String c EmptyString
      | t => String c t
      end
  | EmptyString => EmptyString
  end.

Definition trim (s : string) : string := trimEnd (trimStart s).

(** [spanDigits acc s]: reads the leading decimal digits of [s]; returns
    their value appended to [acc], their count, and the rest of [s]. *)
Fixpoint spanDigits (acc : Z) (s : string) : Z * nat * string :=
  match s with
  | String c s' =>
      if isDigit c then
        let '(v, k, r) := spanDigits (acc * 10 + digitValue c) s' in (v, S k, r)
      else (acc, O, s)
  | EmptyString => (acc, O, s)
  end.

Fixpoint dropPrefix (p s : string) : option string :=
  match p, s with
  | EmptyString, _ => Some s
  | String a p', String b s' =>
      if Ascii.eqb a b then dropPrefix p' s' else None
  | String _ _, EmptyString => None
  end.

(** The optional [ExponentPart]: [e] or [E], an optional sign and at least
    one digit.  An incomplete exponent is not part of the literal. *)
Definition scanExponent (s : string) : Z * string :=
  match s with
  | String c s1 =>
      if Ascii.eqb c "e" || Ascii.eqb c "E" then
        let '(neg, s2) :=
          match s1 with
          | String sg s2 =>
              if Ascii.eqb sg "-" then (true, s2)
              else if Ascii.eqb sg "+" then (false, s2)
              else (false, s1)
          | EmptyString => (false, s1)
          end in
        let '(e, k, r) := spanDigits 0 s2 in
        match k with
        | O => (0%Z, s)
        | S _ => ((if neg then - e else e)%Z, r)
        end
      else (0%Z, s)
  | EmptyString => (0%Z, s)
  end.

(** Mantissa: digits, optionally a dot and more digits, with at least one
    digit in all.  Returns the digits read as one integer, the number of
    fraction digits and the rest. *)
Definition scanMantissa (s : string) : option (Z * nat * string) :=
  let '(i, ki, r1) := spanDigits 0 s in
  match r1 with
  | String c r2 =>
      if Ascii.eqb c "." then
        let '(m, kf, r3) := spanDigits i r2 in
        match ki, kf with
        | O, O => None
        | _, _ => Some (m, kf, r3)
        end
      else match ki with O => None | S _ => Some (i, O, r1) end
  | EmptyString => match ki with O => None | S _ => Some (i, O, r1) end
  end.

(** Values at or beyond this bound round to an infinity as doubles. *)
Definition overflowBound : Q := inject_Z (2 ^ 1024 - 2 ^ 970).

Definition toDouble (neg : bool) (v : Q) : number :=
  if Qle_bool overflowBound v then (if neg then NegInf else PosInf)
  else Fin (if neg then - v else v).

(** [scanFloat s]: the value of the longest leading [StrDecimalLiteral] of
    [s] and the text after it, or [None]. *)
Definition scanFloat (s : string) : option (number * string) :=
  let '(neg, s1) :=
    match s with
    | String c s' =>
        if Ascii.eqb c "-" then (true, s')
        else if Ascii.eqb c "+" then (false, s')
        else (false, s)
    | EmptyString => (false, s)
    end in
  match dropPrefix "Infinity" s1 with
  | Some r => Some (if neg then NegInf else PosInf, r)
  | None =>
      match scanMantissa s1 with
      | None => None
      | Some (m, kf, r) =>
          let '(e, r') := scanExponent r in
          Some (toDouble neg (inject_Z m * Qpower 10 (e - Z.of_nat kf)), r')
      end
  end.

Definition parseFloat (s : string) : number :=
  match scanFloat (trimStart s) with
  | Some (n, _) => n
  | None => NaN
  end.

End Js.

Import Js.

(** ** NumericCoercion: the private helpers of the component *)

(** [parseNumber(value)]; the match is [Number.isFinite]. *)
Definition parseNumber (value : raw) : Q :=
  let parsed := match value with RNum n => n | RStr s => parseFloat s end in
  match parsed with Fin q => q | _ => 0 end.

(** [clampNumber(value, min, max)] *)
Definition clampNumber (value min max : Q) : Q :=
  Math_min (Math_max value min) max.

(** [roundCurrency(value)] *)
Definition roundCurrency (value : Q) : Q := Math_round (value * 100) / 100.

(** [roundPercentage(value)] *)
Definition roundPercentage (value : Q) : Q := Math_round (value * 100) / 100.

(** ** Arrays *)

Module Array.

(** [array[index]] for a number [index]; [None] is [undefined]. *)
Definition at_ {A} (l : list A) (index : Z) : option A :=
  if (index <? 0)%Z then None else l !! Z.to_nat index.

(** The array after [array[index] = x], for an index that is in range. *)
Definition set {A} (l : list A) (index : Z) (x : A) : list A :=
  <[Z.to_nat index := x]> l.

Fixpoint reduceFrom {A B} (callback : B -> A -> Z -> B)
    (l : list A) (currentIndex : Z) (accumulator : B) : B :=
  match l with
  | [] => accumulator
  | x :: l' =>
      reduceFrom callback l' (currentIndex + 1)%Z (callback accumulator x currentIndex)
  end.

(** [array.reduce(callback, initialValue)], the callback taking the
    accumulator, the element and its index. *)
Definition reduce {A B} (callback : B -> A -> Z -> B) (l : list A) (initialValue : B) : B :=
  reduceFrom callback l 0%Z initialValue.

(** The array after [array.splice(start, deleteCount)]: a negative [start]
    counts from the end, and both arguments are clipped to the array. *)
Definition splice {A} (l : list A) (start deleteCount : Z) : list A :=
  let len := Z.of_nat (length l) in
  let actualStart :=
    if (start <? 0)%Z then Z.max (len + start) 0 else Z.min start len in
  let actualDeleteCount := Z.min (Z.max deleteCount 0) (len - actualStart) in
  take (Z.to_nat actualStart) l ++ drop (Z.to_nat (actualStart + actualDeleteCount)) l.

End Array.

(** ** Data model *)

Record Category : Type := mkCategory {
  name : string;
  percentage : Q;
  amount : Q;
  isSavings : bool
}.

Inductive ForecastPeriodUnit : Type := months | years.

Module BudgetPlannerState.
Record t : Type := mk {
  income : Q;
  interestRate : Q;
  forecastPeriodValue : Q;
  forecastPeriodUnit : ForecastPeriodUnit;
  categories : list Category
}.
End BudgetPlannerState.

(** The fields of [AppComponent] that the engine reads and writes. *)
Record AppComponent : Type := mkApp {
  income : Q;
  interestRate : Q;
  forecastPeriodValue : Q;
  forecastPeriodUnit : ForecastPeriodUnit;
  categories : list Category;
  allocationClamped : bool;
  needsIncomeWarning : bool
}.

(** The component as its field initialisers leave it. *)
Definition initial : AppComponent :=
  {| income := 0; interestRate := 0; forecastPeriodValue := 12;
     forecastPeriodUnit := months; categories := [];
     allocationClamped := false; needsIncomeWarning := false |}.

(** A call either returns or throws (a [TypeError] on reading a property of
    [undefined]); in both cases [this] is left in some state. *)
Inductive outcome : Type :=
| Returned (this : AppComponent)
| Threw (this : AppComponent).

Definition after (o : outcome) : AppComponent :=
  match o with Returned c => c | Threw c => c end.

Definition set_percentage (c : Category) (v : Q) : Category :=
  {| name := name c; percentage := v; amount := amount c; isSavings := isSavings c |}.
Definition set_amount (c : Category) (v : Q) : Category :=
  {| name := name c; percentage := percentage c; amount := v; isSavings := isSavings c |}.
Definition set_name (c : Category) (v : string) : Category :=
  {| name := v; percentage := percentage c; amount := amount c; isSavings := isSavings c |}.
Definition set_isSavings (c : Category) (v : bool) : Category :=
  {| name := name c; percentage := percentage c; amount := amount c; isSavings := v |}.

Definition set_categories (this : AppComponent) (l : list Category) : AppComponent :=
  {| income := income this; interestRate := interestRate this;
     forecastPeriodValue := forecastPeriodValue this;
     forecastPeriodUnit := forecastPeriodUnit this; categories := l;
     allocationClamped := allocationClamped this;
     needsIncomeWarning := needsIncomeWarning this |}.
Definition set_income (this : AppComponent) (v : Q) : AppComponent :=
  {| income := v; interestRate := interestRate this;
     forecastPeriodValue := forecastPeriodValue this;
     forecastPeriodUnit := forecastPeriodUnit this; categories := categories this;
     allocationClamped := allocationClamped this;
     needsIncomeWarning := needsIncomeWarning this |}.
Definition set_interestRate (this : AppComponent) (v : Q) : AppComponent :=
  {| income := income this; interestRate := v;
     forecastPeriodValue := forecastPeriodValue this;
     forecastPeriodUnit := forecastPeriodUnit this; categories := categories this;
     allocationClamped := allocationClamped this;
     needsIncomeWarning := needsIncomeWarning this |}.
Definition set_forecastPeriodValue (this : AppComponent) (v : Q) : AppComponent :=
  {| income := income this; interestRate := interestRate this;
     forecastPeriodValue := v;
     forecastPeriodUnit := forecastPeriodUnit this; categories := categories this;
     allocationClamped := allocationClamped this;
     needsIncomeWarning := needsIncomeWarning this |}.
Definition set_forecastPeriodUnit (this : AppComponent) (v : ForecastPeriodUnit) : AppComponent :=
  {| income := income this; interestRate := interestRate this;
     forecastPeriodValue := forecastPeriodValue this;
     forecastPeriodUnit := v; categories := categories this;
     allocationClamped := allocationClamped this;
     needsIncomeWarning := needsIncomeWarning this |}.
Definition set_allocationClamped (this : AppComponent) (v : bool) : AppComponent :=
  {| income := income this; interestRate := interestRate this;
     forecastPeriodValue := forecastPeriodValue this;
     forecastPeriodUnit := forecastPeriodUnit this; categories := categories this;
     allocationClamped := v;
     needsIncomeWarning := needsIncomeWarning this |}.
Definition set_needsIncomeWarning (this : AppComponent) (v : bool) : AppComponent :=
  {| income := income this; interestRate := interestRate this;
     forecastPeriodValue := forecastPeriodValue this;
     forecastPeriodUnit := forecastPeriodUnit this; categories := categories this;
     allocationClamped := allocationClamped this;
     needsIncomeWarning := v |}.

(** [`${prefix}${n}`] *)
Definition numbered (prefix : string) (n : nat) : string :=
  (prefix ++ NilEmpty.string_of_uint (Nat.to_uint n))%string.

(** ** AllocationEngine *)

(** [get totalPercentage()] *)
Definition totalPercentage (this : AppComponent) : Q :=
  Array.reduce (fun total category _ => total + percentage category)
    (categories this) 0.


(** [maxPercentageFor(index)] *)
Definition maxPercentageFor (this : AppComponent) (index : Z) : Q :=
  let allocated :=
    Array.reduce
      (fun total category categoryIndex =>
         if (categoryIndex =? index)%Z then total else total + percentage category)
      (categories this) 0 in
  Math_max 0 (100 - allocated).

(** [recalculateAmounts()] *)
Definition recalculateAmounts (this : AppComponent) : AppComponent :=
  set_categories this
    (map (fun category =>
            set_amount category
              (roundCurrency (income this * percentage category / 100)))
       (categories this)).

(** [addCategory()] *)
Definition addCategory (this : AppComponent) : outcome :=
  let this1 :=
    set_categories this
      (categories this ++
         [ {| name := numbered "Category " (length (categories this) + 1);
              percentage := 0; amount := 0; isSavings := false |} ]) in
  Returned (set_allocationClamped this1 false).

(** [removeCategory(index)] *)
Definition removeCategory (index : Z) (this : AppComponent) : outcome :=
  let this1 := set_categories this (Array.splice (categories this) index 1) in
  let this2 := set_allocationClamped this1 false in
  Returned (set_needsIncomeWarning this2 false).

(** [updateIncome(value)] *)
Definition updateIncome (value : raw) (this : AppComponent) : outcome :=
  let parsed := parseNumber value in
  let this1 := set_income this (Math_max 0 parsed) in
  let this2 := set_needsIncomeWarning this1 false in
  Returned (recalculateAmounts this2).

(** [updateInterestRate(value)] *)
Definition updateInterestRate (value : raw) (this : AppComponent) : outcome :=
  let parsed := parseNumber value in
  Returned (set_interestRate this (Math_max 0 parsed)).

(** [updateForecastPeriodValue(value)] *)
Definition updateForecastPeriodValue (value : raw) (this : AppComponent) : outcome :=
  let parsed := parseNumber value in
  Returned (set_forecastPeriodValue this (Math_max 0 parsed)).

(** [updateForecastPeriodUnit(value)] *)
Definition updateForecastPeriodUnit (value : ForecastPeriodUnit) (this : AppComponent) : outcome :=
  Returned (set_forecastPeriodUnit this value).

(** [updateCategoryName(index, value)] *)
Definition updateCategoryName (index : Z) (value : string) (this : AppComponent) : outcome :=
  match Array.at_ (categories this) index with
  | None => Threw this
  | Some category =>
      Returned (set_categories this
                  (Array.set (categories this) index (set_name category value)))
  end.

(** [updateCategorySavings(index, value)] *)
Definition updateCategorySavings (index : Z) (value : bool) (this : AppComponent) : outcome :=
  match Array.at_ (categories this) index with
  | None => Threw this
  | Some category =>
      Returned (set_categories this
                  (Array.set (categories this) index (set_isSavings category value)))
  end.

(** [updateCategoryPercentage(index, value)].  The flag is written before
    the category is touched, so it is already set when an index that is
    out of range makes the property access throw. *)
Definition updateCategoryPercentage (index : Z) (value : raw) (this : AppComponent) : outcome :=
  let parsed := clampNumber (parseNumber value) 0 100 in
  let maxAllowed := maxPercentageFor this index in
  let nextPercentage := Math_min parsed maxAllowed in
  let this1 := set_allocationClamped this (Qltb maxAllowed parsed) in
  match Array.at_ (categories this1) index with
  | None => Threw this1
  | Some category =>
      let category1 := set_percentage category (roundPercentage nextPercentage) in
      let category2 :=
        set_amount category1
          (roundCurrency (income this1 * percentage category1 / 100)) in
      Returned (set_categories this1 (Array.set (categories this1) index category2))
  end.

(** [updateCategoryAmount(index, value)] *)
Definition updateCategoryAmount (index : Z) (value : raw) (this : AppComponent) : outcome :=
  let amount_ := Math_max 0 (parseNumber value) in
  match Array.at_ (categories this) index with
  | None => Threw this
  | Some category =>
      let category1 := set_amount category (roundCurrency amount_) in
      let this1 := set_categories this (Array.set (categories this) index category1) in
      if Qle_bool (income this1) 0 then
        let category2 := set_percentage category1 0 in
        let this2 := set_categories this1 (Array.set (categories this1) index category2) in
        Returned (set_needsIncomeWarning this2 (Qltb 0 amount_))
      else
        let rawPercentage := amount_ / income this1 * 100 in
        let maxAllowed := maxPercentageFor this1 index in
        let isClamped := Qltb maxAllowed rawPercentage in
        let nextPercentage := if isClamped then maxAllowed else rawPercentage in
        let this2 := set_allocationClamped this1 isClamped in
        let category2 := set_percentage category1 (roundPercentage nextPercentage) in
        let category3 :=
          if isClamped then
            set_amount category2
              (roundCurrency (income this2 * percentage category2 / 100))
          else category2 in
        let this3 := set_categories this2 (Array.set (categories this2) index category3) in
        Returned (set_needsIncomeWarning this3 false)
  end.

(** The same method at the earlier stages of the component that the
    repository also holds: there the amount is recomputed from the
    percentage whether or not the headroom cut it. *)
Module Earlier.

Definition updateCategoryAmount (index : Z) (value : raw) (this : AppComponent) : outcome :=
  let amount_ := Math_max 0 (parseNumber value) in
  match Array.at_ (categories this) index with
  | None => Threw this
  | Some category =>
      let category1 := set_amount category (roundCurrency amount_) in
      let this1 := set_categories this (Array.set (categories this) index category1) in
      if Qle_bool (income this1) 0 then
        let category2 := set_percentage category1 0 in
        let this2 := set_categories this1 (Array.set (categories this1) index category2) in
        Returned (set_needsIncomeWarning this2 (Qltb 0 amount_))
      else
        let rawPercentage := amount_ / income this1 * 100 in
        let maxAllowed := maxPercentageFor this1 index in
        let nextPercentage := Math_min rawPercentage maxAllowed in
        let this2 := set_allocationClamped this1 (Qltb maxAllowed rawPercentage) in
        let category2 := set_percentage category1 (roundPercentage nextPercentage) in
        let category3 :=
          set_amount category2
            (roundCurrency (income this2 * percentage category2 / 100)) in
        let this3 := set_categories this2 (Array.set (categories this2) index category3) in
        Returned (set_needsIncomeWarning this3 false)
  end.

End Earlier.

(** The operations of the engine, with the three settings of the forecast,
    and the state after a call. *)
Inductive operation : Type :=
| SetIncome (value : raw)
| AddCategory
| RemoveCategory (index : Z)
| SetCategoryName (index : Z) (value : string)
| SetCategorySavings (index : Z) (value : bool)
| SetCategoryPercentage (index : Z) (value : raw)
| SetCategoryAmount (index : Z) (value : raw)
| SetInterestRate (value : raw)
| SetForecastPeriodValue (value : raw)
| SetForecastPeriodUnit (value : ForecastPeriodUnit).

Definition call (op : operation) (this : AppComponent) : outcome :=
  match op with
  | SetIncome value => updateIncome value this
  | AddCategory => addCategory this
  | RemoveCategory index => removeCategory index this
  | SetCategoryName index value => updateCategoryName index value this
  | SetCategorySavings index value => updateCategorySavings index value this
  | SetCategoryPercentage index value => updateCategoryPercentage index value this
  | SetCategoryAmount index value => updateCategoryAmount index value this
  | SetInterestRate value => updateInterestRate value this
  | SetForecastPeriodValue value => updateForecastPeriodValue value this
  | SetForecastPeriodUnit value => updateForecastPeriodUnit value this
  end.

(** The component after a sequence of calls; a call that throws leaves the
    component as it was when the exception was raised, and the next call
    goes on from there. *)
Definition run (ops : list operation) (this : AppComponent) : AppComponent :=
  fold_left (fun c op => after (call op c)) ops this.

(** ** ForecastEngine *)

Module SavingsForecast.
Record t : Type := mk {
  name : string;
  monthlyContribution : Q;
  projectedValue : Q
}.
End SavingsForecast.

(** [get totalSavingsAllocation()] *)
Definition totalSavingsAllocation (this : AppComponent) : Q :=
  let total :=
    Array.reduce (fun sum category _ => sum + amount category)
      (List.filter (fun category => isSavings category) (categories this)) 0 in
  roundCurrency total.

(** [get forecastMonths()] *)
Definition forecastMonths (this : AppComponent) : Q :=
  let value := Math_max 0 (parseNumber (RNum (Fin (forecastPeriodValue this)))) in
  let months_ :=
    match forecastPeriodUnit this with years => value * 12 | months => value end in
  months_.

Section Forecast.

(** [Math.pow], of which the code uses no property but that it is a
    function of its two arguments. *)
Variable pow : Q -> Q -> Q.

(** [futureValueForContribution(contribution)] *)
Definition futureValueForContribution (this : AppComponent) (contribution : Q) : Q :=
  if Qle_bool contribution 0 || Qle_bool (forecastMonths this) 0 then 0
  else
    let annualRate := Math_max 0 (interestRate this) / 100 in
    let monthlyRate := annualRate / 12 in
    if Qeq_bool monthlyRate 0 then
      roundCurrency (contribution * forecastMonths this)
    else
      let growthFactor := pow (1 + monthlyRate) (forecastMonths this) in
      let futureValue := contribution * ((growthFactor - 1) / monthlyRate) in
      roundCurrency futureValue.

(** [get projectedSavingsValue()] *)
Definition projectedSavingsValue (this : AppComponent) : Q :=
  futureValueForContribution this (totalSavingsAllocation this).

(** [get savingsForecasts()] *)
Definition savingsForecasts (this : AppComponent) : list SavingsForecast.t :=
  let savingsCategories :=
    List.filter (fun category => isSavings category) (categories this) in
  imap (fun index category =>
          {| SavingsForecast.name :=
               match trim (name category) with
               | EmptyString => numbered "Savings " (index + 1)
               | trimmed => trimmed
               end;
             SavingsForecast.monthlyContribution := amount category;
             SavingsForecast.projectedValue :=
               futureValueForContribution this (amount category) |})
    savingsCategories.

End Forecast.

(** [Math.pow] at an exponent that is an integer, where it is a rational
    function; used to evaluate the forecast on examples. *)
Definition powInteger (base exponent : Q) : Q := Qpower base (Qfloor exponent).

(** ** StateCodec *)

Module Json.

(** A value as [JSON.parse] returns it.  A number of the text that is too
    large parses to an infinity, so [JNum] carries a [number]. *)
#[warnings="-register-all"]
Inductive value : Type :=
| JNull
| JBool (b : bool)
| JNum (n : number)
| JStr (s : string)
| JArr (items : list value)
| JObj (members : list (string * value)).

(** [data[key]] for one of the keys the codec reads; [None] is
    [undefined].  The members of a parsed object have distinct keys, and an
    array has none of the keys the codec reads. *)
Fixpoint lookup (members : list (string * value)) (key : string) : option value :=
  match members with
  | [] => None
  | (k, v) :: rest => if String.eqb k key then Some v else lookup rest key
  end.

Definition get (data : value) (key : string) : option value :=
  match data with
  | JObj members => lookup members key
  | _ => None
  end.

(** [typeof v === 'object'] *)
Definition typeofObject (v : value) : bool :=
  match v with
  | JNull | JArr _ | JObj _ => true
  | _ => false
  end.

(** [!!v] *)
Definition truthy (v : value) : bool :=
  match v with
  | JNull => false
  | JBool b => b
  | JNum (Fin q) => negb (Qeq_bool q 0)
  | JNum NaN => false
  | JNum _ => true
  | JStr s => negb (String.eqb s "")
  | JArr _ | JObj _ => true
  end.

(** What [JSON.parse] does with a text: it throws a [SyntaxError] or
    returns a value. *)
Inductive parsed : Type :=
| SyntaxError
| Value (v : value).

End Json.

Import Json.

(** [safeParseJson(raw)], given what [JSON.parse(raw)] does. *)
Definition safeParseJson (raw_ : Json.parsed) : Json.value :=
  match raw_ with
  | Value v => v
  | SyntaxError => JNull
  end.

(** [coerceString(value, fallback)] *)
Definition coerceString (value : option Json.value) (fallback : string) : string :=
  match value with
  | Some (JStr s) => s
  | _ => fallback
  end.

(** [coerceNumber(value, fallback)] *)
Definition coerceNumber (value : option Json.value) (fallback : Q) : Q :=
  match value with
  | Some (JNum n) => match n with Fin q => q | _ => fallback end
  | Some (JStr s) => match parseFloat s with Fin q => q | _ => fallback end
  | _ => fallback
  end.

(** [coerceBoolean(value, fallback)] *)
Definition coerceBoolean (value : option Json.value) (fallback : bool) : bool :=
  match value with
  | Some (JBool b) => b
  | _ => fallback
  end.

(** [parseState(value)]; [None] is [null]. *)
Definition parseState (value : Json.value) : option BudgetPlannerState.t :=
  if negb (truthy value) || negb (typeofObject value) then None
  else
    let data := value in
    let forecastUnit :=
      match Json.get data "forecastPeriodUnit" with
      | Some (JStr s) => if String.eqb s "years" then years else months
      | _ => months
      end in
    let categories_ :=
      match Json.get data "categories" with
      | Some (JArr items) =>
          imap (fun index entry =>
                  let name_ :=
                    coerceString (Json.get entry "name")
                      (numbered "Category " (index + 1)) in
                  let percentage_ :=
                    clampNumber (coerceNumber (Json.get entry "percentage") 0) 0 100 in
                  let amount_ := Math_max 0 (coerceNumber (Json.get entry "amount") 0) in
                  let isSavings_ := coerceBoolean (Json.get entry "isSavings") false in
                  {| name := name_;
                     percentage := roundPercentage percentage_;
                     amount := roundCurrency amount_;
                     isSavings := isSavings_ |})
            (List.filter (fun item => truthy item && typeofObject item) items)
      | _ => []
      end in
    Some {| BudgetPlannerState.income := Math_max 0 (coerceNumber (Json.get data "income") 0);
            BudgetPlannerState.interestRate :=
              Math_max 0 (coerceNumber (Json.get data "interestRate") 0);
            BudgetPlannerState.forecastPeriodValue :=
              Math_max 0 (coerceNumber (Json.get data "forecastPeriodValue") 12);
            BudgetPlannerState.forecastPeriodUnit := forecastUnit;
            BudgetPlannerState.categories := categories_ |}.

(** Deserialization as [loadState] and the import handler do it:
    [const parsed = safeParseJson(raw);
     const state = parsed ? parseState(parsed) : null]. *)
Definition deserialize (raw_ : Json.parsed) : option BudgetPlannerState.t :=
  let parsed := safeParseJson raw_ in
  if truthy parsed then parseState parsed else None.





(** [applyState(state)] *)
Definition applyState (state : BudgetPlannerState.t) (this : AppComponent) : AppComponent :=
  {| income := Math_max 0 (parseNumber (RNum (Fin (BudgetPlannerState.income state))));
     interestRate :=
       Math_max 0 (parseNumber (RNum (Fin (BudgetPlannerState.interestRate state))));
     forecastPeriodValue :=
       Math_max 0 (parseNumber (RNum (Fin (BudgetPlannerState.forecastPeriodValue state))));
     forecastPeriodUnit := BudgetPlannerState.forecastPeriodUnit state;
     categories := BudgetPlannerState.categories state;
     allocationClamped := false;
     needsIncomeWarning := false |}.

(** ** ChartProjection *)

Module PieSlice.
(** [color] is what the palette holds at the index used; [None] is
    [undefined]. *)
Record t : Type := mk {
  name : string;
  percentage : Q;
  color : option string
}.
End PieSlice.

(** [chartColors] *)
Definition chartColors : list string :=
  ["#2563eb"; "#f97316"; "#14b8a6"; "#a855f7"; "#facc15"; "#10b981"]%string.

(** [get pieSlices()] *)
Definition pieSlices (this : AppComponent) : list PieSlice.t :=
  let total := totalPercentage this in
  if Qle_bool total 0 then []
  else
    imap (fun index category =>
            {| PieSlice.name :=
                 match name category with
                 | EmptyString => numbered "Category " (index + 1)
                 | text => text
                 end;
               PieSlice.percentage := percentage category;
               PieSlice.color := chartColors !! (index mod length chartColors)%nat |})
      (List.filter (fun category => Qltb 0 (percentage category)) (categories this)).

(** ** Loading and importing *)

(** [loadState()], given what the storage holds under the key: [None] when
    there is no storage or nothing stored, otherwise what [JSON.parse] does
    with the stored text. *)
Definition loadState (stored : option Json.parsed) (this : AppComponent) : AppComponent :=
  match stored with
  | None => this
  | Some raw_ =>
      match deserialize raw_ with
      | Some state => applyState state this
      | None => this
      end
  end.

(** The [onload] handler of [importBudgetData], given what [JSON.parse]
    does with the text of the file: the component and the [importError]
    message after it. *)
Definition importOnLoad (text : Json.parsed) (this : AppComponent)
    : AppComponent * string :=
  match deserialize text with
  | None =>
      (this, "Import failed. The selected file is not a valid budget export."%string)
  | Some state => (applyState state this, ""%string)
  end.

(** ** Predicates of the specification *)

(** A value of two-decimal granularity: a whole number of hundredths. *)
Definition isCent (x : Q) : Prop := exists k : Z, x == inject_Z k / 100.

Definition sumQ (l : list Q) : Q := fold_right Qplus 0 l.

(** What the engine maintains about the percentages: each is a
    non-negative number of hundredths, and together they stay within 100. *)
Definition allocationOk (l : list Category) : Prop :=
  Forall (fun category => 0 <= percentage category /\ isCent (percentage category)) l
  /\ sumQ (map percentage l) <= 100.

Definition wellAllocated (this : AppComponent) : Prop :=
  allocationOk (categories this).

(** What the engine maintains about the amounts: the income is not
    negative, and every amount is a non-negative number of hundredths. *)
Definition amountOk (category : Category) : Prop :=
  0 <= percentage category /\ 0 <= amount category /\ isCent (amount category).

Definition amountsOk (this : AppComponent) : Prop :=
  0 <= income this /\ Forall amountOk (categories this).

(** The sum of the percentages of all categories but the one at [index],
    taken in list order. *)
Definition sumOfOthers (l : list Category) (index : Z) : Q :=
  Array.reduce (fun total category _ => total + percentage category)
    (delete (Z.to_nat index) l) 0.

(** Income 1000, a first category at 60 percent and a second one just
    added. *)
Definition sixtyThenNew : AppComponent :=
  run [SetIncome (RNum (Fin 1000)); AddCategory;
       SetCategoryPercentage 0 (RNum (Fin 60)); AddCategory] initial.

(** A fresh component with one category added: no income yet. *)
Definition oneCategory : AppComponent := run [AddCategory] initial.



(** The sum of the [projectedValue] entries of [savingsForecasts]. *)
Definition sumProjected (pow : Q -> Q -> Q) (this : AppComponent) : Q :=
  sumQ (map SavingsForecast.projectedValue (savingsForecasts pow this)).

(** What a contribution of 1 grows to, before rounding. *)
Definition growthPerUnit (pow : Q -> Q -> Q) (this : AppComponent) : Q :=
  if Qle_bool (forecastMonths this) 0 then 0
  else
    let monthlyRate := Math_max 0 (interestRate this) / 100 / 12 in
    if Qeq_bool monthlyRate 0 then forecastMonths this
    else (pow (1 + monthlyRate) (forecastMonths this) - 1) / monthlyRate.

(** 12 percent a year over 12 months. *)
Definition twelveOverTwelve : AppComponent :=
  {| income := 0; interestRate := 12; forecastPeriodValue := 12;
     forecastPeriodUnit := months; categories := [];
     allocationClamped := false; needsIncomeWarning := false |}.

(** Five savings categories of 0.33 each out of an income of 100, at 12
    percent a year over two months. *)
Definition fiveSavings : AppComponent :=
  {| income := 100; interestRate := 12; forecastPeriodValue := 2;
     forecastPeriodUnit := months;
     categories :=
       replicate 5 {| name := "Savings"; percentage := 33 # 100;
                      amount := 33 # 100; isSavings := true |};
     allocationClamped := false; needsIncomeWarning := false |}.

(** A structured object in the sense of the specification: a value with
    named members, as opposed to a sequence or a scalar. *)
Definition isObject (v : Json.value) : bool :=
  match v with JObj _ => true | _ => false end.

(** What the guard of the code lets through: an object or an array. *)
Definition isObjectOrArray (v : Json.value) : bool :=
  match v with JObj _ | JArr _ => true | _ => false end.




(** A valid state with rounded fields. *)
Definition validCategory (c : Category) : Prop :=
  0 <= percentage c <= 100 /\ isCent (percentage c)
  /\ 0 <= amount c /\ isCent (amount c).



(** Decimal numerals: the string of a list of digits and its value. *)
Definition digitChar (d : nat) : ascii := ascii_of_nat (48 + d).

Fixpoint numeral (ds : list nat) : string :=
  match ds with
  | [] => EmptyString
  | d :: ds' => String (digitChar d) (numeral ds')
  end.

Fixpoint numeralValue (acc : Z) (ds : list nat) : Z :=
  match ds with
  | [] => acc
  | d :: ds' => numeralValue (acc * 10 + Z.of_nat d) ds'
  end.


(** An income of 100000 and one category. *)
Definition largeIncome : AppComponent :=
  run [SetIncome (RNum (Fin 100000)); AddCategory] initial.

(** Any number of savings categories of 0.33 each, entered as amounts
    against an income of 100000 (too small to show in the percentage), at
    12 percent a year over two months. *)
Definition manySavings (n : nat) : AppComponent :=
  {| income := 100000; interestRate := 12; forecastPeriodValue := 2;
     forecastPeriodUnit := months;
     categories :=
       replicate n {| name := "Savings"; percentage := 0;
                      amount := 33 # 100; isSavings := true |};
     allocationClamped := false; needsIncomeWarning := false |}.

(** The income warning is only up while there is no income. *)
Definition warningOk (this : AppComponent) : Prop :=
  needsIncomeWarning this = true -> income this <= 0.

(** The settings of the forecast are not negative. *)
Definition forecastOk (this : AppComponent) : Prop :=
  0 <= interestRate this /\ 0 <= forecastPeriodValue this.

(** Two savings categories of 0.33 each out of an income of 100, the
    forecast left at no interest over 12 months. *)
Definition twoSavings : AppComponent :=
  run [SetIncome (RNum (Fin 100)); AddCategory;
       SetCategoryAmount 0 (RNum (Fin (33 # 100))); SetCategorySavings 0 true;
       AddCategory;
       SetCategoryAmount 1 (RNum (Fin (33 # 100))); SetCategorySavings 1 true] initial.


(** Text that starts with a digit, and text that starts an exponent. *)
Definition startsWithDigit (rest : string) : bool :=
  match rest with String c _ => isDigit c | EmptyString => false end.

Definition startsExponent (rest : string) : bool :=
  match rest with
  | String c _ => Ascii.eqb c "e" || Ascii.eqb c "E"
  | EmptyString => false
  end.

(** * Properties *)

(** ** Arithmetic of the helpers *)

Lemma Qltb_lt (a b : Q) : Qltb a b = true <-> a < b.
Proof.
  unfold Qltb. rewrite negb_true_iff.
  destruct (Qle_bool b a) eqn:E.
  - apply Qle_bool_iff in E. split; [discriminate | lra].
  - split; [intros _ | reflexivity].
    destruct (Qlt_le_dec a b) as [H | H]; [exact H |].
    apply Qle_bool_iff in H. congruence.
Qed.

Lemma Qltb_ge (a b : Q) : Qltb a b = false <-> b <= a.
Proof.
  unfold Qltb. rewrite negb_false_iff. apply Qle_bool_iff.
Qed.

Lemma Qle_bool_false (a b : Q) : Qle_bool a b = false <-> b < a.
Proof.
  rewrite <- Qltb_lt. unfold Qltb. rewrite negb_true_iff. reflexivity.
Qed.

Lemma Math_max_cases (a b : Q) :
  (a <= b /\ Math_max a b = b) \/ (b < a /\ Math_max a b = a).
Proof.
  unfold Math_max. destruct (Qle_bool a b) eqn:E.
  - left. split; [now apply Qle_bool_iff | reflexivity].
  - right. split; [now apply Qle_bool_false | reflexivity].
Qed.

Lemma Math_min_cases (a b : Q) :
  (a <= b /\ Math_min a b = a) \/ (b < a /\ Math_min a b = b).
Proof.
  unfold Math_min. destruct (Qle_bool a b) eqn:E.
  - left. split; [now apply Qle_bool_iff | reflexivity].
  - right. split; [now apply Qle_bool_false | reflexivity].
Qed.

Lemma Math_max_lb (a b : Q) : a <= Math_max a b /\ b <= Math_max a b.
Proof. destruct (Math_max_cases a b) as [[H ->] | [H ->]]; lra. Qed.

Lemma Math_min_ub (a b : Q) : Math_min a b <= a /\ Math_min a b <= b.
Proof. destruct (Math_min_cases a b) as [[H ->] | [H ->]]; lra. Qed.

Lemma clampNumber_range (v lo hi : Q) :
  lo <= hi -> lo <= clampNumber v lo hi <= hi.
Proof.
  intros H. unfold clampNumber.
  destruct (Math_max_cases v lo) as [[H1 E1] | [H1 E1]]; rewrite E1;
    destruct (Math_min_cases lo hi) as [[H2 E2] | [H2 E2]];
    destruct (Math_min_cases v hi) as [[H3 E3] | [H3 E3]];
    try rewrite E2; try rewrite E3; lra.
Qed.

Lemma Math_round_mono (x y : Q) : x <= y -> Math_round x <= Math_round y.
Proof.
  intros H. unfold Math_round. rewrite <- Zle_Qle.
  apply Qfloor_resp_le. lra.
Qed.

Lemma Math_round_integer (k : Z) (x : Q) : x == inject_Z k -> Math_round x = inject_Z k.
Proof.
  intros H. unfold Math_round. f_equal.
  assert (Hl : (k <= Qfloor (x + (1 # 2)))%Z).
  { rewrite <- (Qfloor_Z k). apply Qfloor_resp_le. lra. }
  assert (Hu : (Qfloor (x + (1 # 2)) < k + 1)%Z).
  { rewrite Zlt_Qlt. eapply Qle_lt_trans; [apply Qfloor_le |].
    rewrite inject_Z_plus. rewrite H. change (inject_Z 1) with 1. lra. }
  lia.
Qed.

(** [Math.round] moves its argument by at most one half. *)
Lemma Math_round_near (x : Q) : x - (1 # 2) < Math_round x <= x + (1 # 2).
Proof.
  unfold Math_round. split.
  - pose proof (Qlt_floor (x + (1 # 2))) as H.
    rewrite inject_Z_plus in H. change (inject_Z 1) with 1 in H. lra.
  - apply Qfloor_le.
Qed.

Lemma div100 (a : Q) : a / 100 == a * (1 # 100).
Proof. field. Qed.

Lemma roundCurrency_isCent (x : Q) : isCent (roundCurrency x).
Proof. exists (Qfloor (x * 100 + (1 # 2))). reflexivity. Qed.

Lemma roundCurrency_fixes (x : Q) : isCent x -> roundCurrency x == x.
Proof.
  intros [k Hk]. unfold roundCurrency.
  rewrite (Math_round_integer k).
  - rewrite Hk. reflexivity.
  - rewrite Hk. field.
Qed.

Lemma roundCurrency_mono (x y : Q) : x <= y -> roundCurrency x <= roundCurrency y.
Proof.
  intros H. unfold roundCurrency.
  assert (Math_round (x * 100) <= Math_round (y * 100)) by (apply Math_round_mono; lra).
  rewrite !div100. lra.
Qed.

Lemma roundCurrency_near (x : Q) : Qabs (roundCurrency x - x) <= 1 # 200.
Proof.
  unfold roundCurrency. pose proof (Math_round_near (x * 100)) as [H1 H2].
  apply Qabs_Qle_condition. rewrite div100. split; lra.
Qed.


Lemma isCent_0 : isCent 0.
Proof. exists 0%Z. reflexivity. Qed.

Lemma isCent_100 : isCent 100.
Proof. exists 10000%Z. reflexivity. Qed.

Lemma isCent_plus (x y : Q) : isCent x -> isCent y -> isCent (x + y).
Proof.
  intros [a Ha] [b Hb]. exists (a + b)%Z.
  rewrite inject_Z_plus, Ha, Hb. field.
Qed.

Lemma isCent_minus (x y : Q) : isCent x -> isCent y -> isCent (x - y).
Proof.
  intros [a Ha] [b Hb]. exists (a - b)%Z.
  unfold Zminus. rewrite inject_Z_plus, inject_Z_opp, Ha, Hb. field.
Qed.

Lemma isCent_compat (x y : Q) : x == y -> isCent x -> isCent y.
Proof. intros E [k Hk]. exists k. rewrite <- E. exact Hk. Qed.

(** Rounding never lifts a value over a bound that is itself rounded. *)
Lemma roundCurrency_below (x m : Q) : isCent m -> x <= m -> roundCurrency x <= m.
Proof.
  intros Hm H. rewrite <- (roundCurrency_fixes m Hm). now apply roundCurrency_mono.
Qed.

Lemma roundCurrency_nonneg (x : Q) : 0 <= x -> 0 <= roundCurrency x.
Proof.
  intros H. rewrite <- (roundCurrency_fixes 0 isCent_0). now apply roundCurrency_mono.
Qed.

(** ** Sums over the category list *)

Lemma sumQ_cons (x : Q) (l : list Q) : sumQ (x :: l) = x + sumQ l.
Proof. reflexivity. Qed.

Lemma sumQ_app (l1 l2 : list Q) : sumQ (l1 ++ l2) == sumQ l1 + sumQ l2.
Proof.
  induction l1 as [| x l1 IH].
  - cbn [app]. change (sumQ []) with 0. lra.
  - cbn [app]. rewrite !sumQ_cons, IH. lra.
Qed.

Lemma sumQ_nonneg (l : list Q) : Forall (fun x => 0 <= x) l -> 0 <= sumQ l.
Proof.
  induction 1 as [| x l Hx _ IH]; simpl; lra.
Qed.

Lemma sumQ_isCent (l : list Q) : Forall isCent l -> isCent (sumQ l).
Proof.
  induction 1 as [| x l Hx _ IH]; simpl.
  - apply isCent_0.
  - now apply isCent_plus.
Qed.

Lemma sumQ_drop_le (l : list Q) (n : nat) :
  Forall (fun x => 0 <= x) l -> sumQ (drop n l) <= sumQ l.
Proof.
  intros H. revert n. induction H as [| x l Hx Hl IH]; intros [| n]; simpl; try lra.
  specialize (IH n). lra.
Qed.

Lemma reduceFrom_sum {A} (f : A -> Q) (l : list A) (i : Z) (acc : Q) :
  Array.reduceFrom (fun total x _ => total + f x) l i acc == acc + sumQ (map f l).
Proof.
  revert i acc. induction l as [| x l IH]; intros i acc; simpl.
  - lra.
  - rewrite IH. lra.
Qed.

Lemma totalPercentage_sum (this : AppComponent) :
  totalPercentage this == sumQ (map percentage (categories this)).
Proof.
  unfold totalPercentage, Array.reduce. rewrite reduceFrom_sum. lra.
Qed.

Lemma at_cons {A} (x : A) (l : list A) (j : Z) :
  (j <> 0)%Z -> Array.at_ (x :: l) j = Array.at_ l (j - 1).
Proof.
  intros Hj. unfold Array.at_.
  destruct (j <? 0)%Z eqn:E1; destruct (j - 1 <? 0)%Z eqn:E2;
    try reflexivity; try lia.
  replace (Z.to_nat j) with (S (Z.to_nat (j - 1))) by lia. reflexivity.
Qed.

Lemma at_Some {A} (l : list A) (index : Z) (x : A) :
  Array.at_ l index = Some x <->
  (0 <= index)%Z /\ l !! Z.to_nat index = Some x.
Proof.
  unfold Array.at_. destruct (index <? 0)%Z eqn:E.
  - split; [discriminate | lia].
  - split; [intros H; split; [lia | exact H] | tauto].
Qed.

(** The reduction of [maxPercentageFor]: everything but the entry at
    [index]. *)
Lemma reduceFrom_skip (l : list Category) (index i : Z) (acc : Q) :
  Array.reduceFrom
    (fun total category categoryIndex =>
       if (categoryIndex =? index)%Z then total else total + percentage category)
    l i acc
  == acc + sumQ (map percentage l)
     - match Array.at_ l (index - i) with
       | Some category => percentage category
       | None => 0
       end.
Proof.
  revert i acc. induction l as [| x l IH]; intros i acc.
  - simpl. unfold Array.at_. destruct (index - i <? 0)%Z; simpl; lra.
  - cbn [Array.reduceFrom map]. rewrite sumQ_cons, IH.
    destruct (i =? index)%Z eqn:E.
    + apply Z.eqb_eq in E. subst i.
      replace (index - index)%Z with 0%Z by lia.
      replace (index - (index + 1))%Z with (-1)%Z by lia.
      change (Array.at_ (x :: l) 0) with (Some x).
      change (Array.at_ l (-1)) with (@None Category).
      cbv beta iota. lra.
    + apply Z.eqb_neq in E.
      rewrite (at_cons x l (index - i)) by lia.
      replace (index - (i + 1))%Z with (index - i - 1)%Z by lia.
      destruct (Array.at_ l (index - i - 1)); lra.
Qed.

Lemma sumQ_insert (l : list Category) (i : nat) (old new : Category) :
  l !! i = Some old ->
  sumQ (map percentage (<[i := new]> l))
  == sumQ (map percentage l) - percentage old + percentage new.
Proof.
  revert i. induction l as [| x l IH]; intros [| i] H; simpl in *; try discriminate.
  - injection H as ->. lra.
  - rewrite (IH i H). lra.
Qed.

(** ** The allocation invariant *)

Lemma allocationOk_nonneg (l : list Category) :
  allocationOk l -> Forall (fun x => 0 <= x) (map percentage l).
Proof.
  intros [H _]. apply Forall_map. eapply Forall_impl; [exact H |].
  intros c [Hc _]. exact Hc.
Qed.

(** Writing an entry keeps the invariant when the new percentage fits in
    what the other entries leave. *)
Lemma allocationOk_set (l : list Category) (i : nat) (old new : Category) :
  allocationOk l ->
  l !! i = Some old ->
  0 <= percentage new ->
  isCent (percentage new) ->
  percentage new <= 100 - (sumQ (map percentage l) - percentage old) ->
  allocationOk (<[i := new]> l).
Proof.
  intros [HF HS] Hi H0 Hc Hle. split.
  - apply Forall_insert; [exact HF | split; assumption].
  - rewrite (sumQ_insert l i old new Hi). lra.
Qed.

Lemma allocationOk_same (l : list Category) (i : nat) (old new : Category) :
  allocationOk l ->
  l !! i = Some old ->
  percentage new = percentage old ->
  allocationOk (<[i := new]> l).
Proof.
  intros H Hi E. pose proof H as [HF HS].
  apply (allocationOk_set l i old new H Hi).
  - rewrite E. exact (proj1 (proj1 (Forall_lookup _ _) HF i old Hi)).
  - rewrite E. exact (proj2 (proj1 (Forall_lookup _ _) HF i old Hi)).
  - rewrite E. lra.
Qed.

(** Under the invariant the headroom of an entry is what is left of 100
    once the other entries are counted; it is a number of hundredths. *)
Lemma maxPercentageFor_headroom (this : AppComponent) (index : Z) (category : Category) :
  wellAllocated this ->
  Array.at_ (categories this) index = Some category ->
  maxPercentageFor this index
  == 100 - (sumQ (map percentage (categories this)) - percentage category)
  /\ isCent (maxPercentageFor this index)
  /\ 0 <= maxPercentageFor this index.
Proof.
  intros HW Hat. pose proof HW as [HF HS].
  unfold maxPercentageFor, Array.reduce.
  set (allocated := Array.reduceFrom _ _ _ _).
  assert (Ha : allocated
               == sumQ (map percentage (categories this)) - percentage category).
  { unfold allocated. rewrite reduceFrom_skip.
    replace (index - 0)%Z with index by lia. rewrite Hat. lra. }
  apply at_Some in Hat as [Hidx Hi].
  pose proof (proj1 (Forall_lookup _ _) HF _ _ Hi) as [Hc0 Hcc].
  assert (Hcent : isCent (100 - allocated)).
  { apply (isCent_compat
             (100 - (sumQ (map percentage (categories this)) - percentage category))).
    - rewrite Ha. reflexivity.
    - apply isCent_minus; [apply isCent_100 |].
      apply isCent_minus; [| exact Hcc].
      apply sumQ_isCent. apply Forall_map.
      eapply Forall_impl; [exact HF |]. intros c [_ Hc]. exact Hc. }
  destruct (Math_max_cases 0 (100 - allocated)) as [[Hle ->] | [Hlt ->]].
  - repeat split; [rewrite Ha; reflexivity | exact Hcent | exact Hle].
  - lra.
Qed.

Lemma percentage_ratio_nonneg (a b : Q) : 0 <= a -> 0 < b -> 0 <= a / b * 100.
Proof.
  intros Ha Hb.
  assert (0 <= a / b).
  { apply Qle_shift_div_l; [exact Hb | lra]. }
  lra.
Qed.

Lemma addCategory_wellAllocated (this : AppComponent) :
  wellAllocated this -> wellAllocated (after (addCategory this)).
Proof.
  intros [HF HS]. unfold wellAllocated, allocationOk. simpl. split.
  - apply Forall_app. split; [exact HF |].
    constructor; [| constructor]. simpl. split; [lra | apply isCent_0].
  - rewrite map_app, sumQ_app. simpl. lra.
Qed.

Lemma splice_wellAllocated (l : list Category) (start deleteCount : Z) :
  allocationOk l -> allocationOk (Array.splice l start deleteCount).
Proof.
  intros H. pose proof (allocationOk_nonneg l H) as Hn. destruct H as [HF HS].
  unfold Array.splice.
  set (len := Z.of_nat (length l)).
  set (a := if (start <? 0)%Z then Z.max (len + start) 0 else Z.min start len).
  set (d := Z.min (Z.max deleteCount 0) (len - a)).
  assert (Ha : (0 <= a)%Z) by (unfold a, len; destruct (start <? 0)%Z eqn:E; lia).
  assert (Hd : (0 <= d)%Z) by (unfold d, a, len; destruct (start <? 0)%Z eqn:E; lia).
  split.
  - apply Forall_app. split; [now apply Forall_take | now apply Forall_drop].
  - rewrite map_app, sumQ_app.
    replace (Z.to_nat (a + d)) with (Z.to_nat a + Z.to_nat d)%nat by lia.
    rewrite <- drop_drop.
    rewrite <- !firstn_map, <- !skipn_map.
    pose proof (sumQ_drop_le (drop (Z.to_nat a) (map percentage l)) (Z.to_nat d)) as Hdrop.
    assert (Hsplit : sumQ (map percentage l)
                     == sumQ (take (Z.to_nat a) (map percentage l))
                        + sumQ (drop (Z.to_nat a) (map percentage l))).
    { rewrite <- sumQ_app, take_drop. reflexivity. }
    specialize (Hdrop (Forall_drop _ _ _ Hn)). lra.
Qed.

Lemma removeCategory_wellAllocated (index : Z) (this : AppComponent) :
  wellAllocated this -> wellAllocated (after (removeCategory index this)).
Proof.
  intros H. unfold wellAllocated. simpl. now apply splice_wellAllocated.
Qed.

Lemma updateIncome_wellAllocated (value : raw) (this : AppComponent) :
  wellAllocated this -> wellAllocated (after (updateIncome value this)).
Proof.
  intros [HF HS]. unfold wellAllocated, allocationOk. simpl. split.
  - apply Forall_map. simpl. exact HF.
  - rewrite map_map. simpl. exact HS.
Qed.

Lemma updateCategoryName_wellAllocated (index : Z) (value : string) (this : AppComponent) :
  wellAllocated this -> wellAllocated (after (updateCategoryName index value this)).
Proof.
  intros H. unfold updateCategoryName.
  destruct (Array.at_ (categories this) index) as [category |] eqn:E; [| exact H].
  apply at_Some in E as [_ E]. unfold wellAllocated, Array.set. simpl.
  now apply (allocationOk_same _ _ category).
Qed.

Lemma updateCategorySavings_wellAllocated (index : Z) (value : bool) (this : AppComponent) :
  wellAllocated this -> wellAllocated (after (updateCategorySavings index value this)).
Proof.
  intros H. unfold updateCategorySavings.
  destruct (Array.at_ (categories this) index) as [category |] eqn:E; [| exact H].
  apply at_Some in E as [_ E]. unfold wellAllocated, Array.set. simpl.
  now apply (allocationOk_same _ _ category).
Qed.

Lemma updateCategoryPercentage_wellAllocated (index : Z) (value : raw) (this : AppComponent) :
  wellAllocated this -> wellAllocated (after (updateCategoryPercentage index value this)).
Proof.
  intros H. unfold updateCategoryPercentage.
  cbn [categories set_allocationClamped income].
  destruct (Array.at_ (categories this) index) as [category |] eqn:E; [| exact H].
  destruct (maxPercentageFor_headroom this index category H E) as (Hm & Hc & H0).
  apply at_Some in E as [_ E]. unfold wellAllocated, Array.set. simpl.
  pose proof (clampNumber_range (parseNumber value) 0 100 ltac:(lra)) as [Hp _].
  pose proof (Math_min_ub (clampNumber (parseNumber value) 0 100)
                (maxPercentageFor this index)) as [_ Hmin].
  apply (allocationOk_set _ _ category); try assumption; simpl.
  - apply roundCurrency_nonneg.
    destruct (Math_min_cases (clampNumber (parseNumber value) 0 100)
                (maxPercentageFor this index)) as [[_ ->] | [_ ->]]; assumption.
  - apply roundCurrency_isCent.
  - rewrite <- Hm. now apply roundCurrency_below.
Qed.

Lemma updateCategoryAmount_wellAllocated (index : Z) (value : raw) (this : AppComponent) :
  wellAllocated this -> wellAllocated (after (updateCategoryAmount index value this)).
Proof.
  intros H. unfold updateCategoryAmount.
  destruct (Array.at_ (categories this) index) as [category |] eqn:E; [| exact H].
  set (amount_ := Math_max 0 (parseNumber value)).
  set (category1 := set_amount category (roundCurrency amount_)).
  set (this1 := set_categories this (Array.set (categories this) index category1)).
  pose proof (proj1 (at_Some _ _ _) E) as [Hidx Hi].
  assert (Hlen : (Z.to_nat index < length (categories this))%nat)
    by (eapply lookup_lt_Some; exact Hi).
  assert (H1 : wellAllocated this1).
  { unfold wellAllocated, this1, Array.set. simpl.
    now apply (allocationOk_same _ _ category). }
  assert (Hi1 : categories this1 !! Z.to_nat index = Some category1).
  { unfold this1, Array.set. simpl. now apply list_lookup_insert_eq. }
  assert (E1 : Array.at_ (categories this1) index = Some category1)
    by (apply at_Some; split; assumption).
  pose proof H1 as [HF1 HS1].
  pose proof (proj1 (Forall_lookup _ _) HF1 _ _ Hi1) as [Hc0 Hcc].
  destruct (Qle_bool (income this1) 0) eqn:Einc.
  - unfold wellAllocated, Array.set. simpl.
    apply (allocationOk_set _ _ category1); try assumption; simpl.
    + lra.
    + apply isCent_0.
    + unfold this1 in HS1. simpl in HS1, Hc0. lra.
  - apply Qle_bool_false in Einc.
    destruct (maxPercentageFor_headroom this1 index category1 H1 E1) as (Hm & Hc & H0).
    set (maxAllowed := maxPercentageFor this1 index) in *.
    set (rawPercentage := amount_ / income this1 * 100).
    assert (Hraw : 0 <= rawPercentage).
    { apply percentage_ratio_nonneg; [apply Math_max_lb | exact Einc]. }
    set (isClamped := Qltb maxAllowed rawPercentage).
    set (nextPercentage := if isClamped then maxAllowed else rawPercentage).
    assert (Hnext : 0 <= nextPercentage <= maxAllowed).
    { unfold nextPercentage. destruct isClamped eqn:Ec.
      - lra.
      - apply Qltb_ge in Ec. lra. }
    set (category2 := set_percentage category1 (roundPercentage nextPercentage)).
    assert (Hpct : forall c3 : Category,
               percentage c3 = roundPercentage nextPercentage ->
               allocationOk (<[Z.to_nat index := c3]> (categories this1))).
    { intros c3 E3.
      apply (allocationOk_set _ _ category1); try assumption; rewrite E3.
      - apply roundCurrency_nonneg. lra.
      - apply roundCurrency_isCent.
      - rewrite <- Hm. apply roundCurrency_below; [exact Hc | lra]. }
    unfold wellAllocated, Array.set. cbn [after categories set_needsIncomeWarning
      set_categories set_allocationClamped].
    apply Hpct. destruct isClamped; reflexivity.
Qed.

Lemma call_wellAllocated (op : operation) (this : AppComponent) :
  wellAllocated this -> wellAllocated (after (call op this)).
Proof.
  destruct op; simpl.
  - apply updateIncome_wellAllocated.
  - apply addCategory_wellAllocated.
  - apply removeCategory_wellAllocated.
  - apply updateCategoryName_wellAllocated.
  - apply updateCategorySavings_wellAllocated.
  - apply updateCategoryPercentage_wellAllocated.
  - apply updateCategoryAmount_wellAllocated.
  - intros H. exact H.
  - intros H. exact H.
  - intros H. exact H.
Qed.

Lemma run_wellAllocated (ops : list operation) (this : AppComponent) :
  wellAllocated this -> wellAllocated (run ops this).
Proof.
  revert this. induction ops as [| op ops IH]; intros this H.
  - exact H.
  - apply IH. now apply call_wellAllocated.
Qed.

Lemma initial_wellAllocated : wellAllocated initial.
Proof.
  split; [constructor | simpl; lra].
Qed.


(** ** Setting a percentage *)

Lemma reduceFrom_index_irrelevant {A} (f : Q -> A -> Q) (l : list A) (i j : Z) (acc : Q) :
  Array.reduceFrom (fun total x _ => f total x) l i acc
  = Array.reduceFrom (fun total x _ => f total x) l j acc.
Proof.
  revert i j acc. induction l as [| x l IH]; intros i j acc; simpl.
  - reflexivity.
  - apply IH.
Qed.

Lemma reduceFrom_skip_past (l : list Category) (index i : Z) (acc : Q) :
  (index < i)%Z ->
  Array.reduceFrom
    (fun total category categoryIndex =>
       if (categoryIndex =? index)%Z then total else total + percentage category)
    l i acc
  = Array.reduceFrom (fun total category _ => total + percentage category) l i acc.
Proof.
  revert i acc. induction l as [| x l IH]; intros i acc H; simpl.
  - reflexivity.
  - destruct (i =? index)%Z eqn:E; [apply Z.eqb_eq in E; lia |].
    apply IH. lia.
Qed.

Lemma reduceFrom_skip_delete (l : list Category) (index i : Z) (acc : Q) :
  (i <= index)%Z ->
  Array.reduceFrom
    (fun total category categoryIndex =>
       if (categoryIndex =? index)%Z then total else total + percentage category)
    l i acc
  = Array.reduceFrom (fun total category _ => total + percentage category)
      (delete (Z.to_nat (index - i)) l) i acc.
Proof.
  revert i acc. induction l as [| x l IH]; intros i acc H.
  - reflexivity.
  - cbn [Array.reduceFrom]. destruct (i =? index)%Z eqn:E.
    + apply Z.eqb_eq in E. subst i.
      replace (Z.to_nat (index - index)) with 0%nat by lia. cbn [delete list_delete].
      rewrite reduceFrom_skip_past by lia.
      apply (reduceFrom_index_irrelevant (fun total c => total + percentage c)).
    + apply Z.eqb_neq in E.
      replace (Z.to_nat (index - i)) with (S (Z.to_nat (index - (i + 1)))) by lia.
      cbn [delete list_delete Array.reduceFrom].
      rewrite IH by lia.
      apply (reduceFrom_index_irrelevant (fun total c => total + percentage c)).
Qed.

(** The headroom the code computes is 100 less the others, floored at 0. *)
Lemma maxPercentageFor_sumOfOthers (this : AppComponent) (index : Z) :
  (0 <= index)%Z ->
  maxPercentageFor this index
  = Math_max 0 (100 - sumOfOthers (categories this) index).
Proof.
  intros H. unfold maxPercentageFor, sumOfOthers, Array.reduce.
  rewrite reduceFrom_skip_delete by exact H.
  replace (index - 0)%Z with index by lia. reflexivity.
Qed.


Lemma at_set_same {A} (l : list A) (index : Z) (old x : A) :
  Array.at_ l index = Some old ->
  Array.at_ (Array.set l index x) index = Some x.
Proof.
  intros H. apply at_Some in H as [H0 H]. apply at_Some. split; [exact H0 |].
  unfold Array.set. apply list_lookup_insert_eq. eapply lookup_lt_Some; exact H.
Qed.



Lemma delete_insert_same {A} (l : list A) (i : nat) (x : A) :
  delete i (<[i := x]> l) = delete i l.
Proof.
  revert i. induction l as [| y l IH]; intros [| i]; simpl; try reflexivity.
  f_equal. apply IH.
Qed.

Lemma maxPercentageFor_set (this this' : AppComponent) (index : Z) (x : Category) :
  (0 <= index)%Z ->
  categories this' = Array.set (categories this) index x ->
  maxPercentageFor this' index = maxPercentageFor this index.
Proof.
  intros H E. rewrite !maxPercentageFor_sumOfOthers by exact H.
  unfold sumOfOthers. rewrite E. unfold Array.set. now rewrite delete_insert_same.
Qed.

(** C10.  Asking twice for the same percentage of the same category leaves
    the component as the first request left it. *)
Theorem updateCategoryPercentage_idempotent
    (this : AppComponent) (index : Z) (value : raw) (category : Category) :
  Array.at_ (categories this) index = Some category ->
  exists this' : AppComponent,
    updateCategoryPercentage index value this = Returned this'
    /\ updateCategoryPercentage index value this' = Returned this'.
Proof.
  intros Hat. pose proof (proj1 (at_Some _ _ _) Hat) as [Hidx Hi].
  set (p := clampNumber (parseNumber value) 0 100).
  set (m := maxPercentageFor this index).
  set (v := roundPercentage (Math_min p m)).
  set (category2 :=
         set_amount (set_percentage category v) (roundCurrency (income this * v / 100))).
  set (this' := set_categories (set_allocationClamped this (Qltb m p))
                  (Array.set (categories this) index category2)).
  exists this'. split.
  - unfold updateCategoryPercentage.
    cbn [categories set_allocationClamped income]. rewrite Hat. reflexivity.
  - unfold updateCategoryPercentage.
    rewrite (maxPercentageFor_set this this' index category2 Hidx eq_refl).
    fold p m v.
    cbn [categories set_allocationClamped income].
    replace (Array.at_ (categories this') index) with (Some category2)
      by (symmetry; apply (at_set_same _ _ category _ Hat)).
    f_equal. unfold this', set_categories, set_allocationClamped, Array.set.
    cbn [categories income interestRate forecastPeriodValue forecastPeriodUnit
         needsIncomeWarning allocationClamped].
    f_equal. apply list_insert_insert_eq.
Qed.

Lemma updateCategoryPercentage_idempotent_witness :
  Array.at_ (categories sixtyThenNew) 1
  = Some {| name := "Category 2"; percentage := 0; amount := 0; isSavings := false |}
  /\ exists this' : AppComponent,
      updateCategoryPercentage 1 (RNum (Fin 50)) sixtyThenNew = Returned this'
      /\ updateCategoryPercentage 1 (RNum (Fin 50)) this' = Returned this'.
Proof.
  split; [reflexivity |].
  exact (updateCategoryPercentage_idempotent sixtyThenNew 1 (RNum (Fin 50)) _ eq_refl).
Defined.

(** ** Setting an amount *)

Lemma clamped_choice (rawPercentage maxAllowed : Q) :
  (if Qltb maxAllowed rawPercentage then maxAllowed else rawPercentage)
  = Math_min rawPercentage maxAllowed.
Proof.
  unfold Qltb, Math_min. destruct (Qle_bool rawPercentage maxAllowed); reflexivity.
Qed.




(** Where the stages differ: 1.23 out of an income of 100000 is 0.00
    percent after rounding; the amount stays 1.23 now and became 0 at the
    earlier stages. *)
Lemma earlier_stage_recomputes_amount :
  option_map (fun c => (Qred (percentage c), Qred (amount c)))
    (Array.at_ (categories (after (updateCategoryAmount 0 (RNum (Fin (123 # 100)))
                                      largeIncome))) 0)
  = Some (0, 123 # 100)
  /\ option_map (fun c => (Qred (percentage c), Qred (amount c)))
       (Array.at_ (categories (after (Earlier.updateCategoryAmount 0
                                         (RNum (Fin (123 # 100))) largeIncome))) 0)
     = Some (0, 0).
Proof.
  split; vm_compute; reflexivity.
Qed.

(** ** Removing a category *)

Lemma delete_out_of_range {A} (l : list A) (i : nat) :
  (length l <= i)%nat -> delete i l = l.
Proof.
  revert i. induction l as [| x l IH]; intros i H.
  - destruct i; reflexivity.
  - destruct i as [| i]; simpl in *; [lia |]. f_equal. apply IH. lia.
Qed.

(** [splice(index, 1)] removes the entry at the position the index
    denotes, if there is one. *)
Lemma splice_one {A} (l : list A) (index : Z) :
  Array.splice l index 1
  = delete (Z.to_nat (if (index <? 0)%Z
                      then Z.max (Z.of_nat (length l) + index) 0
                      else index)) l.
Proof.
  unfold Array.splice.
  set (len := Z.of_nat (length l)).
  destruct (index <? 0)%Z eqn:E.
  - apply Z.ltb_lt in E.
    destruct (Z.eq_dec len 0%Z) as [H0 | H0].
    + assert (l = []) as -> by (destruct l; [reflexivity | unfold len in H0; simpl in H0; lia]).
      rewrite take_nil, drop_nil. symmetry. apply delete_out_of_range. simpl. lia.
    + replace (Z.min (Z.max 1 0) (len - Z.max (len + index) 0)) with 1%Z by lia.
      rewrite delete_take_drop. do 2 f_equal. lia.
  - apply Z.ltb_ge in E.
    destruct (Z_lt_le_dec index len) as [Hlt | Hge].
    + replace (Z.min index len) with index by lia.
      replace (Z.min (Z.max 1 0) (len - index)) with 1%Z by lia.
      rewrite delete_take_drop. do 2 f_equal. lia.
    + replace (Z.min index len) with len by lia.
      replace (Z.min (Z.max 1 0) (len - len)) with 0%Z by lia.
      rewrite delete_out_of_range by (unfold len in Hge; lia).
      replace (Z.to_nat (len + 0)) with (length l) by (unfold len; lia).
      replace (Z.to_nat len) with (length l) by (unfold len; lia).
      rewrite take_ge, drop_ge by lia. apply app_nil_r.
Qed.

(** C8, as the code has it.  [removeCategory] always returns and clears the
    two flags.  An index that is a position of the list removes that
    category and keeps the others in order; an index at or past the end
    removes nothing; a negative index counts from the end of the list (and
    from its start once it passes it).  No index is reported as an
    error. *)
Theorem removeCategory_spec (this : AppComponent) (index : Z) :
  exists this' : AppComponent,
    removeCategory index this = Returned this'
    /\ categories this'
       = delete (Z.to_nat (if (index <? 0)%Z
                           then Z.max (Z.of_nat (length (categories this)) + index) 0
                           else index))
           (categories this)
    /\ (if (index <? 0)%Z
        then length (categories this') = (length (categories this) - 1)%nat
        else if (index <? Z.of_nat (length (categories this)))%Z
        then forall j : Z,
               Array.at_ (categories this') j
               = Array.at_ (categories this) (if (j <? index)%Z then j else j + 1)
        else categories this' = categories this)
    /\ allocationClamped this' = false
    /\ needsIncomeWarning this' = false
    /\ income this' = income this
    /\ interestRate this' = interestRate this
    /\ forecastPeriodValue this' = forecastPeriodValue this
    /\ forecastPeriodUnit this' = forecastPeriodUnit this.
Proof.
  eexists. split; [reflexivity |].
  cbn [categories set_categories set_needsIncomeWarning set_allocationClamped
       income interestRate forecastPeriodValue forecastPeriodUnit
       needsIncomeWarning allocationClamped].
  rewrite splice_one. split; [reflexivity |]. split; [| repeat split].
  destruct (index <? 0)%Z eqn:E0.
  - apply Z.ltb_lt in E0. destruct (categories this) as [| c l] eqn:El.
    + destruct (Z.to_nat _); reflexivity.
    + rewrite length_delete; [reflexivity |].
      apply lookup_lt_is_Some. cbn [length] in *. lia.
  - apply Z.ltb_ge in E0.
    destruct (index <? Z.of_nat (length (categories this)))%Z eqn:E1.
    + apply Z.ltb_lt in E1. intros j. unfold Array.at_.
      destruct (j <? index)%Z eqn:Ej.
      * apply Z.ltb_lt in Ej. destruct (j <? 0)%Z eqn:Ej0; [reflexivity |].
        apply Z.ltb_ge in Ej0. apply list_lookup_delete_lt. lia.
      * apply Z.ltb_ge in Ej.
        replace (j <? 0)%Z with false by (symmetry; apply Z.ltb_ge; lia).
        replace (j + 1 <? 0)%Z with false by (symmetry; apply Z.ltb_ge; lia).
        rewrite list_lookup_delete_ge by lia. f_equal. lia.
    + apply Z.ltb_ge in E1. apply delete_out_of_range. lia.
Qed.

(** C8 as stated fails: the index -1 is no position of a list, yet the call
    returns and the last category is gone; an index past the end returns as
    well. *)
Lemma removeCategory_never_fails_on_invalid_index :
  Array.at_ (categories oneCategory) (-1) = None
  /\ (exists this' : AppComponent,
        removeCategory (-1) oneCategory = Returned this'
        /\ categories this' = []
        /\ categories oneCategory <> [])
  /\ Array.at_ (categories oneCategory) 5 = None
  /\ (exists this' : AppComponent, removeCategory 5 oneCategory = Returned this').
Proof.
  split; [reflexivity |]. split; [| split; [reflexivity |]].
  - eexists. split; [reflexivity |]. split; [reflexivity | discriminate].
  - eexists. reflexivity.
Qed.

(** ** Forecast *)

Lemma roundCurrency_comp (x y : Q) : x == y -> roundCurrency x = roundCurrency y.
Proof.
  intros E. unfold roundCurrency, Math_round.
  rewrite (Qfloor_comp (x * 100 + (1 # 2)) (y * 100 + (1 # 2))); [reflexivity |].
  rewrite E. reflexivity.
Qed.

Lemma Math_max_0_nonneg (v : Q) : 0 <= v -> Math_max 0 v = v.
Proof.
  intros H. unfold Math_max. apply Qle_bool_iff in H. now rewrite H.
Qed.





(** A contribution that is not negative is projected to the rounded product
    with a factor that only depends on the rate and the horizon. *)
Lemma futureValue_as_product (pow : Q -> Q -> Q) (this : AppComponent) (c : Q) :
  0 <= c ->
  futureValueForContribution pow this c == roundCurrency (c * growthPerUnit pow this).
Proof.
  intros Hc. unfold futureValueForContribution, growthPerUnit.
  destruct (Qle_bool c 0) eqn:E0; cbn [orb].
  - apply Qle_bool_iff in E0.
    rewrite (roundCurrency_comp _ 0) by (assert (c == 0) as -> by lra; ring).
    reflexivity.
  - destruct (Qle_bool (forecastMonths this) 0) eqn:Em.
    + rewrite (roundCurrency_comp _ 0) by ring. reflexivity.
    + destruct (Qeq_bool _ 0); reflexivity.
Qed.

Lemma map_imap_const {A B C} (f : nat -> A -> B) (g : B -> C) (h : A -> C) (l : list A) :
  (forall i x, g (f i x) = h x) -> map g (imap f l) = map h l.
Proof.
  revert f. induction l as [| x l IH]; intros f H; [reflexivity |].
  cbn [imap map]. rewrite H. f_equal. apply IH. intros i y. apply H.
Qed.

Lemma savingsForecasts_projected (pow : Q -> Q -> Q) (this : AppComponent) :
  map SavingsForecast.projectedValue (savingsForecasts pow this)
  = map (fun category => futureValueForContribution pow this (amount category))
      (List.filter (fun category => isSavings category) (categories this)).
Proof.
  unfold savingsForecasts. apply map_imap_const. reflexivity.
Qed.

Lemma rounded_products_near (pow : Q -> Q -> Q) (this : AppComponent) (l : list Category) :
  Forall (fun category => 0 <= amount category) l ->
  let n := inject_Z (Z.of_nat (length l)) in
  let exact := sumQ (map amount l) * growthPerUnit pow this in
  let rounded :=
    sumQ (map (fun category => futureValueForContribution pow this (amount category)) l) in
  exact - n * (1 # 200) <= rounded <= exact + n * (1 # 200).
Proof.
  induction 1 as [| x l Hx Hl IH]; cbn zeta in *.
  - change (sumQ (map amount [])) with 0. cbn [map length].
    change (sumQ []) with 0. change (inject_Z (Z.of_nat 0)) with 0. lra.
  - cbn [map length]. rewrite !sumQ_cons.
    rewrite Nat2Z.inj_succ, <- Z.add_1_r, inject_Z_plus.
    change (inject_Z 1) with 1.
    pose proof (roundCurrency_near (amount x * growthPerUnit pow this)) as Hn.
    apply Qabs_Qle_condition in Hn.
    rewrite (futureValue_as_product pow this (amount x) Hx).
    lra.
Qed.

Lemma rounded_sum_near_aggregate
    (pow : Q -> Q -> Q) (this : AppComponent) :
  Forall (fun category => 0 <= amount category /\ isCent (amount category))
    (List.filter (fun category => isSavings category) (categories this)) ->
  Qabs (sumProjected pow this - projectedSavingsValue pow this)
  <= (inject_Z (Z.of_nat (length (savingsForecasts pow this))) + 1) * (1 # 200).
Proof.
  intros H. unfold sumProjected, projectedSavingsValue, totalSavingsAllocation.
  rewrite <- (length_map SavingsForecast.projectedValue).
  rewrite savingsForecasts_projected. rewrite length_map.
  set (l := List.filter (fun category => isSavings category) (categories this)) in *.
  assert (Hnonneg : Forall (fun category => 0 <= amount category) l).
  { eapply Forall_impl; [exact H |]. intros c [Hc _]. exact Hc. }
  assert (Hcent : isCent (sumQ (map amount l))).
  { apply sumQ_isCent, Forall_map. eapply Forall_impl; [exact H |].
    intros c [_ Hc]. exact Hc. }
  assert (Hsum0 : 0 <= sumQ (map amount l)).
  { apply sumQ_nonneg, Forall_map. exact Hnonneg. }
  assert (Htotal : Array.reduce (fun sum category _ => sum + amount category) l 0
                   == sumQ (map amount l)).
  { unfold Array.reduce. rewrite reduceFrom_sum. lra. }
  set (total := Array.reduce _ l 0) in *.
  assert (Hround : roundCurrency total == sumQ (map amount l)).
  { rewrite (roundCurrency_comp _ _ Htotal). now apply roundCurrency_fixes. }
  pose proof (rounded_products_near pow this l Hnonneg) as Hnear. cbn zeta in Hnear.
  assert (Hagg : futureValueForContribution pow this (roundCurrency total)
                 == roundCurrency (sumQ (map amount l) * growthPerUnit pow this)).
  { rewrite futureValue_as_product by (rewrite Hround; exact Hsum0).
    rewrite (roundCurrency_comp _ (sumQ (map amount l) * growthPerUnit pow this));
      [reflexivity | rewrite Hround; reflexivity]. }
  pose proof (roundCurrency_near (sumQ (map amount l) * growthPerUnit pow this)) as Hn.
  apply Qabs_Qle_condition in Hn.
  apply Qabs_Qle_condition. rewrite Hagg. split; lra.
Qed.

(** C7, as the code has it.  When the amounts of the savings categories are
    non-negative numbers of hundredths, the projected values of the [n]
    savings categories add up to the aggregate projection to within
    [(n + 1) * 0.005]: one rounding of half a hundredth for each category
    and one for the aggregate. *)
Theorem projections_add_up_within_roundings
    (pow : Q -> Q -> Q) (this : AppComponent) :
  Forall (fun category => 0 <= amount category /\ isCent (amount category))
    (List.filter (fun category => isSavings category) (categories this)) ->
  Qabs (sumProjected pow this - projectedSavingsValue pow this)
  <= (inject_Z (Z.of_nat (length (savingsForecasts pow this))) + 1) * (1 # 200).
Proof.
  exact (rounded_sum_near_aggregate pow this).
Qed.

Lemma projections_add_up_within_roundings_witness :
  Forall (fun category => 0 <= amount category /\ isCent (amount category))
    (List.filter (fun category => isSavings category) (categories fiveSavings))
  /\ Qabs (sumProjected powInteger fiveSavings - projectedSavingsValue powInteger fiveSavings)
     <= 3 # 100.
Proof.
  assert (H : Forall (fun category => 0 <= amount category /\ isCent (amount category))
                (List.filter (fun category => isSavings category) (categories fiveSavings))).
  { repeat constructor; try (vm_compute; discriminate); exists 33%Z; reflexivity. }
  split; [exact H |].
  eapply Qle_trans; [exact (projections_add_up_within_roundings powInteger fiveSavings H) |].
  vm_compute. discriminate.
Defined.

(** C7 as stated fails for a rounding allowance of one hundredth: five
    savings categories of 0.33 are projected to 0.66 each, 3.30 together,
    and their total of 1.65 to 3.32. *)
Lemma projections_differ_by_two_hundredths :
  sumProjected powInteger fiveSavings == 330 # 100
  /\ projectedSavingsValue powInteger fiveSavings == 332 # 100
  /\ ~ Qabs (sumProjected powInteger fiveSavings
             - projectedSavingsValue powInteger fiveSavings) <= 1 # 100.
Proof.
  split; [vm_compute; reflexivity |]. split; [vm_compute; reflexivity |].
  vm_compute. intros H. apply H. reflexivity.
Qed.

(** ** The state codec *)

Lemma deserialize_None (r : Json.parsed) :
  deserialize r = None <->
  r = SyntaxError \/ exists v : Json.value, r = Value v /\ isObjectOrArray v = false.
Proof.
  destruct r as [| v].
  - split; [intros _; now left | reflexivity].
  - unfold deserialize, safeParseJson, parseState. split.
    + intros H. right. exists v. split; [reflexivity |].
      destruct v as [| b | n | s | items | members]; try reflexivity;
        cbn in H; discriminate.
    + intros [H | (v' & Hv & H)]; [discriminate |].
      injection Hv as <-.
      destruct v as [| b | n | s | items | members]; try discriminate;
        try reflexivity.
      * destruct b; reflexivity.
      * destruct (truthy (JNum n)); reflexivity.
      * destruct (truthy (JStr s)); reflexivity.
Qed.

Lemma deserialize_Some (v : Json.value) (state : BudgetPlannerState.t) :
  deserialize (Value v) = Some state -> parseState v = Some state.
Proof.
  unfold deserialize, safeParseJson. destruct (truthy v); [tauto | discriminate].
Qed.

(** C6, as the code has it.  [deserialize] is a total function: it never
    throws.  It fails exactly on a text that does not parse and on a
    top-level value that is neither an object nor an array; an array is
    accepted like an object without members.  When it succeeds, categories
    that are absent or not an array give the empty list; otherwise the
    elements that are neither objects nor arrays are dropped and each of
    the others gives one category, in order, field by field. *)
Theorem deserialize_spec :
  (forall r : Json.parsed,
     deserialize r = None <->
     r = SyntaxError \/ exists v : Json.value, r = Value v /\ isObjectOrArray v = false)
  /\ (forall (v : Json.value) (state : BudgetPlannerState.t),
        deserialize (Value v) = Some state ->
        match Json.get v "categories" with
        | Some (JArr items) =>
            let kept := List.filter isObjectOrArray items in
            length (BudgetPlannerState.categories state) = length kept
            /\ forall (i : nat) (entry : Json.value),
                 kept !! i = Some entry ->
                 BudgetPlannerState.categories state !! i
                 = Some {| name := coerceString (Json.get entry "name")
                                     (numbered "Category " (i + 1));
                           percentage :=
                             roundPercentage
                               (clampNumber
                                  (coerceNumber (Json.get entry "percentage") 0) 0 100);
                           amount :=
                             roundCurrency
                               (Math_max 0 (coerceNumber (Json.get entry "amount") 0));
                           isSavings := coerceBoolean (Json.get entry "isSavings") false |}
        | _ => BudgetPlannerState.categories state = []
        end).
Proof.
  split; [exact deserialize_None |].
  intros v state H. apply deserialize_Some in H. unfold parseState in H.
  destruct (negb (truthy v) || negb (typeofObject v)); [discriminate |].
  injection H as <-. cbn [BudgetPlannerState.categories].
  destruct (Json.get v "categories") as [[| b | n | s | items | members] |];
    try reflexivity.
  replace (List.filter (fun item => truthy item && typeofObject item) items)
    with (List.filter isObjectOrArray items).
  - cbn zeta. split; [apply length_imap |].
    intros i entry Hi. rewrite list_lookup_imap, Hi. reflexivity.
  - apply filter_ext. intros [| b | n | s | l | m]; try reflexivity.
    + destruct b; reflexivity.
    + cbn. now rewrite andb_false_r.
    + cbn. now rewrite andb_false_r.
Qed.

(** The tenth scenario of the specification: categories that are not an
    array give a state without categories. *)
Lemma deserialize_spec_witness :
  exists state : BudgetPlannerState.t,
    deserialize (Value (JObj [("categories"%string, JStr "not-an-array")])) = Some state
    /\ BudgetPlannerState.categories state = []
    /\ deserialize (Value (JNum (Fin 7))) = None
    /\ deserialize SyntaxError = None.
Proof.
  eexists. split; [reflexivity |]. split; [| split].
  - exact (proj2 deserialize_spec
             (JObj [("categories"%string, JStr "not-an-array")]) _ eq_refl).
  - apply (proj1 deserialize_spec). right. eexists. split; reflexivity.
  - apply (proj1 deserialize_spec). now left.
Defined.

(** C6 as stated fails: an array is not a structured object, yet an array
    at the top level is deserialized, to the default state, and an array
    among the categories is not dropped but gives a default category. *)
Lemma deserialize_accepts_arrays :
  isObject (JArr []) = false
  /\ deserialize (Value (JArr []))
     = Some {| BudgetPlannerState.income := 0;
               BudgetPlannerState.interestRate := 0;
               BudgetPlannerState.forecastPeriodValue := 12;
               BudgetPlannerState.forecastPeriodUnit := months;
               BudgetPlannerState.categories := [] |}
  /\ option_map (fun state => map name (BudgetPlannerState.categories state))
       (deserialize (Value (JObj [("categories"%string, JArr [JArr []])])))
     = Some ["Category 1"%string].
Proof.
  repeat split.
Qed.

Lemma clampNumber_inside (v lo hi : Q) : lo <= v <= hi -> clampNumber v lo hi == v.
Proof.
  intros [H1 H2]. unfold clampNumber.
  destruct (Math_max_cases v lo) as [[Ha ->] | [Ha ->]];
    [destruct (Math_min_cases lo hi) as [[Hb ->] | [Hb ->]]
    | destruct (Math_min_cases v hi) as [[Hb ->] | [Hb ->]]]; lra.
Qed.






(** ** Parsing numbers *)

Lemma digitChar_facts (d : nat) :
  (d < 10)%nat ->
  isDigit (digitChar d) = true
  /\ digitValue (digitChar d) = Z.of_nat d
  /\ isWhiteSpace (digitChar d) = false
  /\ Ascii.eqb (digitChar d) "-" = false
  /\ Ascii.eqb (digitChar d) "+" = false
  /\ Ascii.eqb "I" (digitChar d) = false.
Proof.
  intros H. do 10 (destruct d as [| d]; [repeat split |]). lia.
Qed.






(** ** No fixed allowance covers the roundings of the forecast *)

Lemma sumQ_replicate (n : nat) (x : Q) :
  sumQ (replicate n x) == inject_Z (Z.of_nat n) * x.
Proof.
  induction n as [| n IH].
  - change (sumQ (replicate 0 x)) with 0. change (inject_Z (Z.of_nat 0)) with 0. ring.
  - cbn [replicate]. rewrite sumQ_cons, IH.
    rewrite Nat2Z.inj_succ, <- Z.add_1_r, inject_Z_plus. change (inject_Z 1) with 1. ring.
Qed.

Lemma filter_replicate_true {A} (f : A -> bool) (n : nat) (x : A) :
  f x = true -> List.filter f (replicate n x) = replicate n x.
Proof.
  intros H. induction n as [| n IH]; [reflexivity |].
  cbn [replicate List.filter]. now rewrite H, IH.
Qed.

Lemma map_replicate {A B} (f : A -> B) (n : nat) (x : A) :
  map f (replicate n x) = replicate n (f x).
Proof.
  induction n as [| n IH]; [reflexivity |]. cbn [replicate map]. now rewrite IH.
Qed.

Lemma manySavings_gap (n : nat) :
  inject_Z (Z.of_nat n) * (33 # 10000) - (1 # 200)
  <= projectedSavingsValue powInteger (manySavings n)
     - sumProjected powInteger (manySavings n).
Proof.
  set (c := {| name := "Savings"; percentage := 0; amount := 33 # 100;
               isSavings := true |}).
  assert (Hfilter : List.filter (fun category => isSavings category)
                      (categories (manySavings n)) = replicate n c).
  { unfold manySavings. cbn [categories]. now apply filter_replicate_true. }
  assert (Hsum : sumProjected powInteger (manySavings n)
                 == inject_Z (Z.of_nat n) * (66 # 100)).
  { unfold sumProjected. rewrite savingsForecasts_projected, Hfilter, map_replicate.
    rewrite sumQ_replicate.
    assert (E : futureValueForContribution powInteger (manySavings n) (amount c)
                == 66 # 100) by (vm_compute; reflexivity).
    now rewrite E. }
  assert (Htotal : totalSavingsAllocation (manySavings n)
                   == inject_Z (Z.of_nat n) * (33 # 100)).
  { unfold totalSavingsAllocation. rewrite Hfilter.
    assert (E : Array.reduce (fun sum category _ => sum + amount category)
                  (replicate n c) 0
                == inject_Z (Z.of_nat n) * (33 # 100)).
    { unfold Array.reduce. rewrite reduceFrom_sum, map_replicate, sumQ_replicate.
      cbn [amount c]. ring. }
    rewrite (roundCurrency_comp _ _ E). apply roundCurrency_fixes.
    exists (Z.of_nat n * 33)%Z. rewrite inject_Z_mult. field. }
  assert (Hn : 0 <= inject_Z (Z.of_nat n)).
  { change 0 with (inject_Z 0). rewrite <- Zle_Qle. lia. }
  assert (Hk : growthPerUnit powInteger (manySavings n) == 201 # 100)
    by (vm_compute; reflexivity).
  unfold projectedSavingsValue.
  rewrite futureValue_as_product by (rewrite Htotal; lra).
  rewrite (roundCurrency_comp _ (inject_Z (Z.of_nat n) * (6633 # 10000)))
    by (rewrite Htotal, Hk; ring).
  pose proof (roundCurrency_near (inject_Z (Z.of_nat n) * (6633 # 10000))) as Hnear.
  apply Qabs_Qle_condition in Hnear. rewrite Hsum. lra.
Qed.

(** Whatever allowance is fixed, enough savings categories exceed it. *)
Lemma no_fixed_allowance (eps : Q) :
  exists n : nat,
    eps < Qabs (sumProjected powInteger (manySavings n)
                - projectedSavingsValue powInteger (manySavings n)).
Proof.
  set (k := Z.max 0 (Qceiling ((eps + 1) * 1000))).
  exists (Z.to_nat k). pose proof (manySavings_gap (Z.to_nat k)) as Hgap.
  rewrite Z2Nat.id in Hgap by (unfold k; lia).
  assert (Hk : (eps + 1) * 1000 <= inject_Z k).
  { eapply Qle_trans; [apply Qle_ceiling |]. rewrite <- Zle_Qle. unfold k. lia. }
  assert (Hk0 : 0 <= inject_Z k).
  { change 0 with (inject_Z 0). rewrite <- Zle_Qle. unfold k. lia. }
  rewrite Qabs_Qminus. eapply Qlt_le_trans; [| apply Qle_Qabs]. lra.
Qed.

(** ** The amounts of a reachable state *)

Lemma share_nonneg (a b : Q) : 0 <= a -> 0 <= b -> 0 <= a * b / 100.
Proof.
  intros Ha Hb. pose proof (Qmult_le_0_compat a b Ha Hb). rewrite div100. lra.
Qed.

Lemma amountOk_recomputed (this : AppComponent) (category : Category) (v : Q) :
  0 <= income this -> 0 <= v ->
  amountOk (set_amount (set_percentage category (roundPercentage v))
              (roundCurrency (income this * roundPercentage v / 100))).
Proof.
  intros Hi Hv. unfold amountOk. cbn [percentage amount set_amount set_percentage].
  assert (0 <= roundPercentage v) by now apply roundCurrency_nonneg.
  repeat split; [assumption | | apply roundCurrency_isCent].
  apply roundCurrency_nonneg. now apply share_nonneg.
Qed.

Lemma call_amountsOk (op : operation) (this : AppComponent) :
  amountsOk this -> amountsOk (after (call op this)).
Proof.
  intros [Hi HF].
  destruct op as [value | | index | index value | index value | index value
                 | index value | value | value | value]; cbn [call].
  - (* updateIncome *)
    unfold amountsOk. cbn. split; [apply Math_max_lb |].
    apply Forall_map. eapply Forall_impl; [exact HF |].
    intros c (Hp & _ & _). unfold amountOk. cbn. 
    repeat split; [exact Hp | | apply roundCurrency_isCent].
    apply roundCurrency_nonneg. apply share_nonneg; [apply Math_max_lb | exact Hp].
  - (* addCategory *)
    unfold amountsOk. cbn. split; [exact Hi |].
    apply Forall_app. split; [exact HF |]. constructor; [| constructor].
    unfold amountOk. cbn. repeat split; try lra. apply isCent_0.
  - (* removeCategory *)
    unfold amountsOk. cbn. split; [exact Hi |]. unfold Array.splice.
    apply Forall_app. split; [now apply Forall_take | now apply Forall_drop].
  - (* updateCategoryName *)
    unfold updateCategoryName.
    destruct (Array.at_ (categories this) index) as [category |] eqn:E;
      [| split; assumption].
    apply at_Some in E as [_ E]. split; [exact Hi |]. cbn. unfold Array.set.
    apply Forall_insert; [exact HF |].
    exact (proj1 (Forall_lookup _ _) HF _ _ E).
  - (* updateCategorySavings *)
    unfold updateCategorySavings.
    destruct (Array.at_ (categories this) index) as [category |] eqn:E;
      [| split; assumption].
    apply at_Some in E as [_ E]. split; [exact Hi |]. cbn. unfold Array.set.
    apply Forall_insert; [exact HF |].
    exact (proj1 (Forall_lookup _ _) HF _ _ E).
  - (* updateCategoryPercentage *)
    unfold updateCategoryPercentage. cbn [categories set_allocationClamped income].
    destruct (Array.at_ (categories this) index) as [category |] eqn:E;
      [| split; assumption].
    split; [exact Hi |]. cbn [after categories set_categories]. unfold Array.set.
    apply Forall_insert; [exact HF |].
    apply (amountOk_recomputed this); [exact Hi |].
    pose proof (clampNumber_range (parseNumber value) 0 100 ltac:(lra)) as [Hp _].
    pose proof (Math_max_lb 0 (100 - Array.reduce
                  (fun total category categoryIndex =>
                     if (categoryIndex =? index)%Z then total
                     else total + percentage category) (categories this) 0)) as [Hm _].
    fold (maxPercentageFor this index) in Hm.
    destruct (Math_min_cases (clampNumber (parseNumber value) 0 100)
                (maxPercentageFor this index)) as [[_ ->] | [_ ->]]; assumption.
  - (* updateCategoryAmount *)
    unfold updateCategoryAmount.
    destruct (Array.at_ (categories this) index) as [category |] eqn:E;
      [| split; assumption].
    set (entered := Math_max 0 (parseNumber value)).
    assert (He : 0 <= entered) by apply Math_max_lb.
    set (category1 := set_amount category (roundCurrency entered)).
    set (this1 := set_categories this (Array.set (categories this) index category1)).
    apply at_Some in E as [_ E].
    pose proof (proj1 (Forall_lookup _ _) HF _ _ E) as (Hp & _ & _).
    assert (HF1 : Forall amountOk (categories this1)).
    { unfold this1, Array.set. cbn. apply Forall_insert; [exact HF |].
      unfold amountOk, category1. cbn.
      repeat split; [exact Hp | now apply roundCurrency_nonneg
                    | apply roundCurrency_isCent]. }
    change (income this1) with (income this).
    destruct (Qle_bool (income this) 0) eqn:Einc.
    + split; [exact Hi |]. cbn [after categories set_categories set_needsIncomeWarning].
      unfold Array.set at 1. apply Forall_insert; [exact HF1 |].
      unfold amountOk, category1. cbn.
      repeat split; [lra | now apply roundCurrency_nonneg | apply roundCurrency_isCent].
    + apply Qle_bool_false in Einc.
      split; [exact Hi |].
      cbn [after categories set_categories set_needsIncomeWarning set_allocationClamped
           income].
      unfold Array.set at 1. apply Forall_insert; [exact HF1 |].
      set (rawPercentage := entered / income this * 100).
      assert (Hraw : 0 <= rawPercentage) by now apply percentage_ratio_nonneg.
      pose proof (Math_max_lb 0 (100 - Array.reduce
                    (fun total category categoryIndex =>
                       if (categoryIndex =? index)%Z then total
                       else total + percentage category) (categories this1) 0))
        as [Hm _].
      fold (maxPercentageFor this1 index) in Hm.
      destruct (Qltb (maxPercentageFor this1 index) rawPercentage).
      * apply (amountOk_recomputed this); assumption.
      * unfold amountOk, category1. cbn.
        repeat split; [now apply roundCurrency_nonneg | now apply roundCurrency_nonneg
                      | apply roundCurrency_isCent].
  - split; assumption.
  - split; assumption.
  - split; assumption.
Qed.

Lemma run_amountsOk (ops : list operation) (this : AppComponent) :
  amountsOk this -> amountsOk (run ops this).
Proof.
  revert this. induction ops as [| op ops IH]; intros this H.
  - exact H.
  - apply IH. now apply call_amountsOk.
Qed.

(** In every state the operations lead to from a fresh component, the
    projections of the savings categories add up to the aggregate
    projection to within half a hundredth for each of them and one more. *)
Lemma reachable_projections_add_up (pow : Q -> Q -> Q) (ops : list operation) :
  let this := run ops initial in
  Qabs (sumProjected pow this - projectedSavingsValue pow this)
  <= (inject_Z (Z.of_nat (length (savingsForecasts pow this))) + 1) * (1 # 200).
Proof.
  intros this. apply rounded_sum_near_aggregate.
  assert (H : amountsOk this).
  { apply run_amountsOk. split; [cbn; lra | constructor]. }
  destruct H as [_ H]. apply Forall_forall. intros c Hc.
  apply list_elem_of_In, filter_In in Hc as [Hc _]. apply list_elem_of_In in Hc.
  destruct (proj1 (Forall_forall _ _) H c Hc) as (_ & H0 & Hcent). split; assumption.
Qed.

(** * Further properties of the component *)

(** ** Changing the income *)

Lemma lookup_map {A B} (f : A -> B) (l : list A) (i : nat) :
  map f l !! i = option_map f (l !! i).
Proof.
  revert i. induction l as [| x l IH]; intros [| i]; try reflexivity. apply IH.
Qed.



(** Entering the same income twice is entering it once. *)
Theorem updateIncome_idempotent (this : AppComponent) (value : raw) :
  updateIncome value (after (updateIncome value this)) = updateIncome value this.
Proof.
  unfold updateIncome, recalculateAmounts.
  cbn [after income categories set_categories set_needsIncomeWarning set_income
       interestRate forecastPeriodValue forecastPeriodUnit allocationClamped
       needsIncomeWarning].
  f_equal. unfold set_categories, set_needsIncomeWarning, set_income.
  cbn [income categories interestRate forecastPeriodValue forecastPeriodUnit
       allocationClamped needsIncomeWarning].
  f_equal. rewrite map_map. apply map_ext. intros c. reflexivity.
Qed.

(** ** What every reachable state satisfies *)

Lemma percentages_at_most_100 (l : list Category) :
  allocationOk l -> Forall (fun c => percentage c <= 100) l.
Proof.
  intros [HF HS]. induction HF as [| c l [Hc _] HF IH]; constructor.
  - cbn [map] in HS. rewrite sumQ_cons in HS.
    assert (0 <= sumQ (map percentage l)).
    { apply sumQ_nonneg, Forall_map. eapply Forall_impl; [exact HF |].
      intros x [Hx _]. exact Hx. }
    lra.
  - apply IH. cbn [map] in HS. rewrite sumQ_cons in HS. lra.
Qed.

Lemma call_forecastOk (op : operation) (this : AppComponent) :
  forecastOk this -> forecastOk (after (call op this)).
Proof.
  intros [Hr Hp].
  destruct op as [value | | index | index value | index value | index value
                 | index value | value | value | value]; cbn [call];
    try (split; assumption).
  - unfold updateCategoryName. destruct (Array.at_ _ _); split; assumption.
  - unfold updateCategorySavings. destruct (Array.at_ _ _); split; assumption.
  - unfold updateCategoryPercentage. cbn [categories set_allocationClamped].
    destruct (Array.at_ _ _); split; assumption.
  - unfold updateCategoryAmount. destruct (Array.at_ _ _); [| split; assumption].
    cbn [income set_categories].
    destruct (Qle_bool (income this) 0); split; assumption.
  - split; [apply Math_max_lb | exact Hp].
  - split; [exact Hr | apply Math_max_lb].
Qed.

Lemma run_forecastOk (ops : list operation) (this : AppComponent) :
  forecastOk this -> forecastOk (run ops this).
Proof.
  revert this. induction ops as [| op ops IH]; intros this H; [exact H |].
  apply IH. now apply call_forecastOk.
Qed.

Lemma initial_amountsOk (ops : list operation) : amountsOk (run ops initial).
Proof.
  apply run_amountsOk. split; [cbn; lra | constructor].
Qed.


(** The data model holds in every state the operations lead to from a
    fresh component: income, rate and horizon are not negative, and every
    category has a percentage between 0 and 100 and a non-negative amount,
    both of two-decimal granularity. *)
Theorem reachable_state_is_valid (ops : list operation) :
  0 <= income (run ops initial)
  /\ 0 <= interestRate (run ops initial)
  /\ 0 <= forecastPeriodValue (run ops initial)
  /\ Forall validCategory (categories (run ops initial)).
Proof.
  pose proof (run_wellAllocated ops initial initial_wellAllocated) as HW.
  assert (HA : amountsOk (run ops initial)).
  { apply run_amountsOk. split; [cbn; lra | constructor]. }
  assert (HFo : forecastOk (run ops initial)).
  { apply run_forecastOk. split; cbn; lra. }
  destruct HA as [Hi HA]. destruct HFo as [Hr Hp].
  repeat split; try assumption.
  pose proof (percentages_at_most_100 _ HW) as H100. destruct HW as [HF _].
  apply Forall_forall. intros c Hc.
  destruct (proj1 (Forall_forall _ _) HF c Hc) as [H0 Hcent].
  destruct (proj1 (Forall_forall _ _) HA c Hc) as (_ & Ha0 & Hacent).
  pose proof (proj1 (Forall_forall _ _) H100 c Hc) as Hle.
  unfold validCategory. repeat split; assumption.
Qed.

Lemma call_warningOk (op : operation) (this : AppComponent) :
  warningOk this -> warningOk (after (call op this)).
Proof.
  unfold warningOk. intros H.
  destruct op as [value | | index | index value | index value | index value
                 | index value | value | value | value]; cbn [call];
    try exact H; try (cbn; discriminate).
  - unfold updateCategoryName. destruct (Array.at_ _ _); exact H.
  - unfold updateCategorySavings. destruct (Array.at_ _ _); exact H.
  - unfold updateCategoryPercentage. cbn [categories set_allocationClamped].
    destruct (Array.at_ _ _); exact H.
  - unfold updateCategoryAmount. destruct (Array.at_ _ _); [| exact H].
    cbn [income set_categories].
    destruct (Qle_bool (income this) 0) eqn:E.
    + intros _. cbn. now apply Qle_bool_iff.
    + cbn. discriminate.
Qed.

(** The income warning is never up while there is an income: in every
    state the operations lead to from a fresh component, a raised
    [needsIncomeWarning] comes with an income of 0. *)
Theorem income_warning_only_without_income (ops : list operation) :
  needsIncomeWarning (run ops initial) = true -> income (run ops initial) == 0.
Proof.
  assert (H : forall this, warningOk this -> warningOk (run ops this)).
  { induction ops as [| op ops IH]; intros this Hw; [exact Hw |].
    apply IH. now apply call_warningOk. }
  intros Hw. specialize (H initial ltac:(unfold warningOk; cbn; discriminate) Hw).
  pose proof (initial_amountsOk ops) as [Hi _]. lra.
Qed.

Lemma income_warning_only_without_income_witness :
  needsIncomeWarning
    (run [AddCategory; SetCategoryAmount 0 (RNum (Fin 200))] initial) = true
  /\ income (run [AddCategory; SetCategoryAmount 0 (RNum (Fin 200))] initial) == 0.
Proof.
  split; [reflexivity |].
  exact (income_warning_only_without_income
           [AddCategory; SetCategoryAmount 0 (RNum (Fin 200))] eq_refl).
Defined.

(** ** Headroom *)












(** ** Indices that are no position of the list *)

Lemma at_is_position {A} (l : list A) (index : Z) :
  Array.at_ l index <> None <-> (0 <= index < Z.of_nat (length l))%Z.
Proof.
  unfold Array.at_. destruct (index <? 0)%Z eqn:E.
  - apply Z.ltb_lt in E. split; [congruence | lia].
  - apply Z.ltb_ge in E. split.
    + intros H. destruct (l !! Z.to_nat index) eqn:El; [| congruence].
      apply lookup_lt_Some in El. lia.
    + intros H. destruct (l !! Z.to_nat index) eqn:El; [discriminate |].
      apply lookup_ge_None in El. lia.
Qed.

(** The four methods that update a category by index throw exactly when the
    index is no position of the list.  When they throw, the component is as
    it was, except that [updateCategoryPercentage] has already overwritten
    [allocationClamped]. *)
Theorem update_by_index_throws_off_the_list
    (this : AppComponent) (index : Z) (text : string) (flag : bool) (value : raw) :
  let offList := ~ (0 <= index < Z.of_nat (length (categories this)))%Z in
  (offList <-> updateCategoryName index text this = Threw this)
  /\ (offList <-> updateCategorySavings index flag this = Threw this)
  /\ (offList <-> updateCategoryAmount index value this = Threw this)
  /\ (offList <->
      updateCategoryPercentage index value this
      = Threw (set_allocationClamped this
                 (Qltb (maxPercentageFor this index)
                    (clampNumber (parseNumber value) 0 100))))
  /\ (offList ->
      categories (after (updateCategoryPercentage index value this)) = categories this).
Proof.
  cbn zeta. rewrite <- at_is_position.
  unfold updateCategoryName, updateCategorySavings, updateCategoryAmount,
    updateCategoryPercentage.
  cbn [categories set_allocationClamped income].
  destruct (Array.at_ (categories this) index) as [category |] eqn:E.
  - repeat split; try (intros H; exfalso; apply H; discriminate);
      try discriminate.
    intros H. exfalso.
    cbn [income set_categories] in H.
    destruct (Qle_bool (income this) 0); discriminate.
  - repeat split; try reflexivity; intros _ H; now apply H.
Qed.

Lemma update_by_index_throws_off_the_list_witness :
  ~ (0 <= 3 < Z.of_nat (length (categories oneCategory)))%Z
  /\ updateCategoryName 3 "Rent" oneCategory = Threw oneCategory
  /\ categories (after (updateCategoryPercentage 3 (RNum (Fin 10)) oneCategory))
     = categories oneCategory.
Proof.
  assert (H : ~ (0 <= 3 < Z.of_nat (length (categories oneCategory)))%Z)
    by (cbn; lia).
  destruct (update_by_index_throws_off_the_list oneCategory 3 "Rent" false
              (RNum (Fin 10))) as (Hname & _ & _ & _ & Hcats).
  split; [exact H |]. split; [exact (proj1 Hname H) | exact (Hcats H)].
Defined.

(** ** Adding and removing *)




(** [addCategory] appends one category with nothing allocated and leaves
    the others and the total as they are; removing the last category right
    after, by its index or by -1, gives back the list. *)
Theorem addCategory_then_remove_last (this : AppComponent) :
  let added := after (addCategory this) in
  let n := Z.of_nat (length (categories this)) in
  length (categories added) = S (length (categories this))
  /\ take (length (categories this)) (categories added) = categories this
  /\ option_map (fun c => (percentage c, amount c, isSavings c))
       (Array.at_ (categories added) n) = Some (0, 0, false)
  /\ totalPercentage added == totalPercentage this
  /\ categories (after (removeCategory n added)) = categories this
  /\ categories (after (removeCategory (-1) added)) = categories this.
Proof.
  cbn zeta. unfold addCategory.
  cbn [after categories set_categories set_allocationClamped].
  set (new := {| name := _; percentage := 0; amount := 0; isSavings := false |}).
  assert (Hdel : delete (length (categories this)) (categories this ++ [new])
                 = categories this).
  { rewrite delete_take_drop, take_app_length.
    rewrite drop_ge by (rewrite length_app; cbn; lia). apply app_nil_r. }
  split; [rewrite length_app; cbn; lia |]. split; [| split; [| split; [| split]]].
  - apply take_app_length.
  - unfold Array.at_.
    replace (Z.of_nat (length (categories this)) <? 0)%Z with false
      by (symmetry; apply Z.ltb_ge; lia).
    rewrite Nat2Z.id, list_lookup_middle by reflexivity. reflexivity.
  - rewrite !totalPercentage_sum. cbn [categories set_categories set_allocationClamped].
    rewrite map_app, sumQ_app. cbn. ring.
  - unfold removeCategory.
    cbn [after categories set_categories set_allocationClamped set_needsIncomeWarning].
    rewrite splice_one.
    replace (Z.of_nat (length (categories this)) <? 0)%Z with false
      by (symmetry; apply Z.ltb_ge; lia).
    rewrite Nat2Z.id. exact Hdel.
  - unfold removeCategory.
    cbn [after categories set_categories set_allocationClamped set_needsIncomeWarning].
    rewrite splice_one. cbn [Z.ltb Z.compare].
    rewrite length_app. cbn [length].
    replace (Z.to_nat (Z.max (Z.of_nat (length (categories this) + 1) + -1) 0))
      with (length (categories this)) by lia.
    exact Hdel.
Qed.

(** ** Amounts and the percentages they stand for *)

(** With an income, the amount [updateCategoryAmount] leaves in the
    category differs from the amount its percentage stands for by at most
    half a hundredth of a percent of the income, and half a hundredth. *)
Theorem amount_matches_percentage_within_rounding
    (this : AppComponent) (index : Z) (value : raw) (category : Category) :
  0 < income this ->
  Array.at_ (categories this) index = Some category ->
  exists (this' : AppComponent) (category' : Category),
    updateCategoryAmount index value this = Returned this'
    /\ Array.at_ (categories this') index = Some category'
    /\ Qabs (amount category' - income this * percentage category' / 100)
       <= income this * (1 # 20000) + (1 # 200).
Proof.
  intros Hinc Hat. unfold updateCategoryAmount. rewrite Hat.
  set (entered := Math_max 0 (parseNumber value)).
  set (category1 := set_amount category (roundCurrency entered)).
  set (this1 := set_categories this (Array.set (categories this) index category1)).
  assert (Hat1 : Array.at_ (categories this1) index = Some category1).
  { unfold this1. cbn [categories set_categories]. now apply (at_set_same _ _ category). }
  change (income this1) with (income this).
  replace (Qle_bool (income this) 0) with false
    by (symmetry; now apply Qle_bool_false).
  set (rawPercentage := entered / income this * 100).
  set (maxAllowed := maxPercentageFor this1 index).
  destruct (Qltb maxAllowed rawPercentage) eqn:Ec.
  - eexists. eexists. split; [reflexivity |].
    cbn [categories set_categories set_needsIncomeWarning set_allocationClamped income].
    split; [now apply (at_set_same _ _ category1) |].
    cbn [amount percentage set_amount set_percentage].
    eapply Qle_trans; [apply roundCurrency_near | lra].
  - eexists. eexists. split; [reflexivity |].
    cbn [categories set_categories set_needsIncomeWarning set_allocationClamped income].
    split; [now apply (at_set_same _ _ category1) |].
    cbn [amount percentage set_amount set_percentage category1].
    pose proof (roundCurrency_near entered) as H1.
    pose proof (roundCurrency_near rawPercentage) as H2.
    apply Qabs_Qle_condition in H1. apply Qabs_Qle_condition in H2.
    unfold roundPercentage. fold (roundCurrency rawPercentage).
    assert (He : entered == income this * rawPercentage * (1 # 100)).
    { unfold rawPercentage. field. lra. }
    assert (Hlo : income this * (rawPercentage - (1 # 200))
                  <= income this * roundCurrency rawPercentage).
    { apply Qmult_le_l; [exact Hinc | lra]. }
    assert (Hhi : income this * roundCurrency rawPercentage
                  <= income this * (rawPercentage + (1 # 200))).
    { apply Qmult_le_l; [exact Hinc | lra]. }
    apply Qabs_Qle_condition. rewrite div100. split; lra.
Qed.

Lemma amount_matches_percentage_within_rounding_witness :
  0 < income largeIncome
  /\ exists (this' : AppComponent) (category' : Category),
      updateCategoryAmount 0 (RNum (Fin (123 # 100))) largeIncome = Returned this'
      /\ Array.at_ (categories this') 0 = Some category'
      /\ Qabs (amount category' - income largeIncome * percentage category' / 100)
         <= 5005 # 1000.
Proof.
  assert (Hinc : 0 < income largeIncome) by (vm_compute; reflexivity).
  split; [exact Hinc |].
  destruct (amount_matches_percentage_within_rounding largeIncome 0
              (RNum (Fin (123 # 100))) _ Hinc eq_refl)
    as (this' & category' & Hcall & Hat & H).
  exists this', category'. split; [exact Hcall |]. split; [exact Hat |].
  eapply Qle_trans; [exact H |]. vm_compute. discriminate.
Defined.

(** An amount entered while there is no income does not survive the entry
    of an income: the category is left at 0 percent, so [updateIncome]
    recomputes its amount to 0, and the warning is cleared. *)
Theorem amount_entered_without_income_is_dropped
    (this : AppComponent) (index : Z) (value income' : raw) (category : Category) :
  income this <= 0 ->
  Array.at_ (categories this) index = Some category ->
  let entered := after (updateCategoryAmount index value this) in
  let funded := after (updateIncome income' entered) in
  (needsIncomeWarning entered = true <-> 0 < parseNumber value)
  /\ needsIncomeWarning funded = false
  /\ exists category' : Category,
       Array.at_ (categories funded) index = Some category'
       /\ name category' = name category
       /\ percentage category' = 0
       /\ amount category' == 0.
Proof.
  intros Hinc Hat. cbn zeta. unfold updateCategoryAmount. rewrite Hat.
  cbn [income set_categories].
  replace (Qle_bool (income this) 0) with true
    by (symmetry; now apply Qle_bool_iff).
  cbn [after updateIncome needsIncomeWarning set_needsIncomeWarning recalculateAmounts
       set_categories set_income categories income].
  split; [| split; [reflexivity |]].
  - rewrite Qltb_lt.
    destruct (Math_max_cases 0 (parseNumber value)) as [[H ->] | [H ->]]; split; lra.
  - pose proof (proj1 (at_Some _ _ _) Hat) as [Hidx Hi].
    eexists. split.
    + apply at_Some. split; [exact Hidx |]. rewrite lookup_map.
      unfold Array.set. rewrite list_lookup_insert_eq.
      * reflexivity.
      * rewrite length_insert. eapply lookup_lt_Some; exact Hi.
    + cbn [name percentage amount set_amount set_percentage]. repeat split.
      rewrite (roundCurrency_comp _ 0) by (rewrite div100; ring).
      reflexivity.
Qed.

Lemma amount_entered_without_income_is_dropped_witness :
  income oneCategory <= 0
  /\ needsIncomeWarning (after (updateCategoryAmount 0 (RNum (Fin 200)) oneCategory)) = true
  /\ exists category' : Category,
       Array.at_ (categories
                    (after (updateIncome (RNum (Fin 1000))
                              (after (updateCategoryAmount 0 (RNum (Fin 200)) oneCategory))))) 0
       = Some category'
       /\ amount category' == 0.
Proof.
  assert (Hinc : income oneCategory <= 0) by (vm_compute; discriminate).
  destruct (amount_entered_without_income_is_dropped oneCategory 0 (RNum (Fin 200))
              (RNum (Fin 1000)) _ Hinc eq_refl)
    as (Hw & _ & category' & Hat & _ & _ & Ha).
  split; [exact Hinc |]. split.
  - apply Hw. vm_compute. reflexivity.
  - exists category'. split; [exact Hat | exact Ha].
Defined.

(** ** More on the forecast *)

Lemma savings_sum (this : AppComponent) :
  Array.reduce (fun sum category _ => sum + amount category)
    (List.filter (fun category => isSavings category) (categories this)) 0
  == sumQ (map amount (List.filter (fun category => isSavings category) (categories this))).
Proof.
  unfold Array.reduce. rewrite reduceFrom_sum. ring.
Qed.

Lemma savings_amountsOk (this : AppComponent) :
  amountsOk this ->
  Forall (fun category => 0 <= amount category /\ isCent (amount category))
    (List.filter (fun category => isSavings category) (categories this)).
Proof.
  intros [_ H]. apply Forall_forall. intros c Hc.
  apply list_elem_of_In, filter_In in Hc as [Hc _]. apply list_elem_of_In in Hc.
  destruct (proj1 (Forall_forall _ _) H c Hc) as (_ & H0 & Hcent). split; assumption.
Qed.


Lemma growthPerUnit_nonneg (pow : Q -> Q -> Q) (this : AppComponent) :
  1 <= pow (1 + Math_max 0 (interestRate this) / 100 / 12) (forecastMonths this) ->
  0 <= growthPerUnit pow this.
Proof.
  intros Hpow. unfold growthPerUnit.
  destruct (Qle_bool (forecastMonths this) 0) eqn:Em; [lra |].
  apply Qle_bool_false in Em.
  destruct (Qeq_bool _ 0) eqn:Er; [lra |].
  assert (Hr0 : 0 <= Math_max 0 (interestRate this) / 100 / 12).
  { pose proof (Math_max_lb 0 (interestRate this)) as [H _].
    apply Qle_shift_div_l; [reflexivity |]. apply Qle_shift_div_l; [reflexivity |]. lra. }
  assert (Hr : 0 < Math_max 0 (interestRate this) / 100 / 12).
  { destruct (Qlt_le_dec 0 (Math_max 0 (interestRate this) / 100 / 12)) as [H | H];
      [exact H |].
    assert (E : Math_max 0 (interestRate this) / 100 / 12 == 0) by lra.
    apply Qeq_bool_iff in E. congruence. }
  apply Qle_shift_div_l; [exact Hr | lra].
Qed.

(** Where the power is at least 1, as a power of a base of at least 1 is,
    the projected value is never negative and never goes down when the
    contribution goes up. *)
Theorem futureValue_is_monotone
    (pow : Q -> Q -> Q) (this : AppComponent) (c1 c2 : Q) :
  1 <= pow (1 + Math_max 0 (interestRate this) / 100 / 12) (forecastMonths this) ->
  c1 <= c2 ->
  0 <= futureValueForContribution pow this c1
  /\ futureValueForContribution pow this c1 <= futureValueForContribution pow this c2.
Proof.
  intros Hpow Hle. pose proof (growthPerUnit_nonneg pow this Hpow) as HK.
  assert (Hnonneg : forall c, 0 <= futureValueForContribution pow this c).
  { intros c. destruct (Qlt_le_dec 0 c) as [Hc | Hc].
    - rewrite futureValue_as_product by lra. apply roundCurrency_nonneg.
      apply Qmult_le_0_compat; lra.
    - unfold futureValueForContribution. apply Qle_bool_iff in Hc. rewrite Hc. cbn. lra. }
  split; [apply Hnonneg |].
  destruct (Qlt_le_dec 0 c1) as [Hc1 | Hc1].
  - rewrite !futureValue_as_product by lra. apply roundCurrency_mono.
    apply Qmult_le_compat_r; assumption.
  - unfold futureValueForContribution at 1. apply Qle_bool_iff in Hc1. rewrite Hc1.
    cbn [orb]. apply Hnonneg.
Qed.

Lemma futureValue_is_monotone_witness :
  1 <= powInteger (1 + Math_max 0 (interestRate twelveOverTwelve) / 100 / 12)
         (forecastMonths twelveOverTwelve)
  /\ 50 <= 100
  /\ futureValueForContribution powInteger twelveOverTwelve 50
     <= futureValueForContribution powInteger twelveOverTwelve 100.
Proof.
  assert (H1 : 1 <= powInteger (1 + Math_max 0 (interestRate twelveOverTwelve) / 100 / 12)
                      (forecastMonths twelveOverTwelve))
    by (vm_compute; discriminate).
  assert (H2 : 50 <= 100) by lra.
  split; [exact H1 |]. split; [exact H2 |].
  exact (proj2 (futureValue_is_monotone powInteger twelveOverTwelve 50 100 H1 H2)).
Defined.

Lemma isCent_times_integer (x : Q) (k : Z) : isCent x -> isCent (x * inject_Z k).
Proof.
  intros [a Ha]. exists (a * k)%Z. rewrite inject_Z_mult, Ha. field.
Qed.

Lemma exact_products (pow : Q -> Q -> Q) (this : AppComponent) (k : Z) (l : list Category) :
  growthPerUnit pow this == inject_Z k ->
  Forall (fun category => 0 <= amount category /\ isCent (amount category)) l ->
  sumQ (map (fun category => futureValueForContribution pow this (amount category)) l)
  == sumQ (map amount l) * inject_Z k.
Proof.
  intros HK H. induction H as [| c l [Hc Hcent] _ IH].
  - change (sumQ (map amount [])) with 0. cbn [map]. change (sumQ []) with 0. ring.
  - cbn [map]. rewrite !sumQ_cons, IH, futureValue_as_product by exact Hc.
    rewrite (roundCurrency_comp _ (amount c * inject_Z k)) by (rewrite HK; reflexivity).
    rewrite roundCurrency_fixes by now apply isCent_times_integer. ring.
Qed.

(** Without interest and over a whole number of months nothing is lost to
    rounding: when the amounts of the savings categories are non-negative
    numbers of hundredths, their projected values add up to the aggregate
    projection exactly. *)
Theorem projections_add_up_exactly_without_interest
    (pow : Q -> Q -> Q) (this : AppComponent) (wholeMonths : Z) :
  interestRate this == 0 ->
  forecastMonths this == inject_Z wholeMonths ->
  Forall (fun category => 0 <= amount category /\ isCent (amount category))
    (List.filter (fun category => isSavings category) (categories this)) ->
  sumProjected pow this == projectedSavingsValue pow this.
Proof.
  intros Hrate Hmonths H.
  assert (HK : exists k : Z, growthPerUnit pow this == inject_Z k).
  { unfold growthPerUnit. destruct (Qle_bool (forecastMonths this) 0).
    - exists 0%Z. reflexivity.
    - assert (E : Math_max 0 (interestRate this) / 100 / 12 == 0).
      { rewrite Math_max_0_nonneg by lra. rewrite Hrate. reflexivity. }
      apply Qeq_bool_iff in E. rewrite E. exists wholeMonths. exact Hmonths. }
  destruct HK as [k HK].
  unfold sumProjected, projectedSavingsValue, totalSavingsAllocation.
  rewrite savingsForecasts_projected, (exact_products pow this k _ HK H).
  set (l := List.filter (fun category => isSavings category) (categories this)) in *.
  assert (Hcent : isCent (sumQ (map amount l))).
  { apply sumQ_isCent, Forall_map. eapply Forall_impl; [exact H |].
    intros c [_ Hc]. exact Hc. }
  assert (Hnn : 0 <= sumQ (map amount l)).
  { apply sumQ_nonneg, Forall_map. eapply Forall_impl; [exact H |].
    intros c [Hc _]. exact Hc. }
  assert (Htotal : roundCurrency
                     (Array.reduce (fun sum category _ => sum + amount category) l 0)
                   == sumQ (map amount l)).
  { unfold l. rewrite (roundCurrency_comp _ _ (savings_sum this)). fold l.
    now apply roundCurrency_fixes. }
  rewrite futureValue_as_product by (rewrite Htotal; exact Hnn).
  rewrite (roundCurrency_comp _ (sumQ (map amount l) * inject_Z k))
    by (rewrite Htotal, HK; reflexivity).
  rewrite roundCurrency_fixes by now apply isCent_times_integer. reflexivity.
Qed.

Lemma projections_add_up_exactly_without_interest_witness :
  interestRate twoSavings == 0
  /\ forecastMonths twoSavings == inject_Z 12
  /\ sumProjected powInteger twoSavings == 792 # 100
  /\ projectedSavingsValue powInteger twoSavings == 792 # 100.
Proof.
  assert (H1 : interestRate twoSavings == 0) by reflexivity.
  assert (H2 : forecastMonths twoSavings == inject_Z 12) by reflexivity.
  pose proof (projections_add_up_exactly_without_interest powInteger twoSavings 12
                H1 H2 (savings_amountsOk _ (initial_amountsOk _))) as H.
  split; [exact H1 |]. split; [exact H2 |]. split.
  - rewrite H. vm_compute. reflexivity.
  - vm_compute. reflexivity.
Defined.


(** ** The slices of the chart *)


(** Every slice of [pieSlices] has a positive percentage, a name that is
    not empty and a colour of the palette (the index into the palette is
    never out of range); the colours repeat every six slices; and there
    are at most as many slices as categories. *)
Theorem pieSlices_are_drawable (this : AppComponent) :
  Forall (fun slice =>
            0 < PieSlice.percentage slice
            /\ PieSlice.name slice <> EmptyString
            /\ exists colour : string,
                 PieSlice.color slice = Some colour /\ In colour chartColors)
    (pieSlices this)
  /\ (forall (i : nat) (a b : PieSlice.t),
        pieSlices this !! i = Some a ->
        pieSlices this !! (i + 6)%nat = Some b ->
        PieSlice.color a = PieSlice.color b)
  /\ (length (pieSlices this) <= length (categories this))%nat.
Proof.
  unfold pieSlices.
  destruct (Qle_bool (totalPercentage this) 0).
  - split; [constructor |]. split; [intros i a b H; discriminate | cbn; lia].
  - split; [| split].
    + apply Forall_lookup. intros i slice Hi.
      rewrite list_lookup_imap in Hi.
      destruct (List.filter _ _ !! i) as [category |] eqn:Ec; [| discriminate].
      injection Hi as <-.
      cbn [PieSlice.percentage PieSlice.name PieSlice.color].
      assert (Hin : In category
                (List.filter (fun category => Qltb 0 (percentage category))
                   (categories this))).
      { apply list_elem_of_In, list_elem_of_lookup. eauto. }
      apply filter_In in Hin as [_ Hpos]. apply Qltb_lt in Hpos.
      split; [exact Hpos |]. split.
      * destruct (name category); discriminate.
      * assert (Hlt : (i mod length chartColors < length chartColors)%nat)
          by (apply Nat.mod_upper_bound; discriminate).
        destruct (lookup_lt_is_Some_2 chartColors _ Hlt) as [colour Hcolour].
        exists colour. split; [exact Hcolour |].
        apply list_elem_of_In, list_elem_of_lookup. eauto.
    + intros i a b Ha Hb. rewrite list_lookup_imap in Ha, Hb.
      destruct (List.filter _ _ !! i); [| discriminate].
      destruct (List.filter _ _ !! (i + 6)%nat); [| discriminate].
      injection Ha as <-. injection Hb as <-.
      cbn [PieSlice.color]. f_equal.
      change (length chartColors) with 6%nat.
      symmetry. exact (Nat.Div0.mod_add i 1 6).
    + rewrite length_imap. apply filter_length_le.
Qed.



(** ** More on the state codec *)

Lemma rounded_clamped_percentage (x : Q) :
  0 <= roundPercentage (clampNumber x 0 100) <= 100
  /\ isCent (roundPercentage (clampNumber x 0 100)).
Proof.
  pose proof (clampNumber_range x 0 100 ltac:(lra)) as [H0 H1].
  repeat split.
  - now apply roundCurrency_nonneg.
  - apply roundCurrency_below; [apply isCent_100 | exact H1].
  - apply roundCurrency_isCent.
Qed.

Lemma rounded_floored_amount (x : Q) :
  0 <= roundCurrency (Math_max 0 x) /\ isCent (roundCurrency (Math_max 0 x)).
Proof.
  split; [apply roundCurrency_nonneg, Math_max_lb | apply roundCurrency_isCent].
Qed.

Lemma parseState_valid (v : Json.value) (state : BudgetPlannerState.t) :
  parseState v = Some state ->
  0 <= BudgetPlannerState.income state
  /\ 0 <= BudgetPlannerState.interestRate state
  /\ 0 <= BudgetPlannerState.forecastPeriodValue state
  /\ Forall validCategory (BudgetPlannerState.categories state).
Proof.
  unfold parseState. destruct (negb (truthy v) || negb (typeofObject v)); [discriminate |].
  intros H. injection H as <-.
  cbn [BudgetPlannerState.income BudgetPlannerState.interestRate
       BudgetPlannerState.forecastPeriodValue BudgetPlannerState.categories].
  repeat split; try apply Math_max_lb.
  destruct (Json.get v "categories") as [[| b | n | s | items | members] |];
    try constructor.
  apply Forall_lookup. intros i c Hi. rewrite list_lookup_imap in Hi.
  destruct (List.filter _ items !! i) as [entry |]; [| discriminate].
  injection Hi as <-. unfold validCategory. cbn [percentage amount].
  pose proof (rounded_clamped_percentage (coerceNumber (Json.get entry "percentage") 0))
    as (Hp & Hpc).
  pose proof (rounded_floored_amount (coerceNumber (Json.get entry "amount") 0))
    as (Ha & Hac).
  repeat split; try assumption; apply Hp.
Qed.

(** Whatever it is given, a state that [deserialize] returns satisfies the
    data model field by field: income, rate and horizon are not negative,
    and every category has a percentage between 0 and 100 and a
    non-negative amount, both rounded to hundredths. *)
Theorem deserialized_state_is_valid_field_by_field
    (r : Json.parsed) (state : BudgetPlannerState.t) :
  deserialize r = Some state ->
  0 <= BudgetPlannerState.income state
  /\ 0 <= BudgetPlannerState.interestRate state
  /\ 0 <= BudgetPlannerState.forecastPeriodValue state
  /\ Forall validCategory (BudgetPlannerState.categories state).
Proof.
  intros H. destruct r as [| v]; [discriminate |].
  apply deserialize_Some in H. exact (parseState_valid v state H).
Qed.

Lemma deserialized_state_is_valid_field_by_field_witness :
  exists state : BudgetPlannerState.t,
    deserialize
      (Value (JObj [("income"%string, JStr "-5");
                    ("categories"%string,
                      JArr [JObj [("percentage"%string, JNum (Fin 250));
                                  ("amount"%string, JNum (Fin (- (3))))]])]))
    = Some state
    /\ 0 <= BudgetPlannerState.income state
    /\ Forall validCategory (BudgetPlannerState.categories state).
Proof.
  eexists. split; [reflexivity |].
  pose proof (deserialized_state_is_valid_field_by_field _ _
                (eq_refl : deserialize
                   (Value (JObj [("income"%string, JStr "-5");
                                 ("categories"%string,
                                   JArr [JObj [("percentage"%string, JNum (Fin 250));
                                               ("amount"%string, JNum (Fin (- (3))))]])]))
                           = Some _)) as (Hi & _ & _ & Hc).
  split; [exact Hi | exact Hc].
Defined.








(** ** Loading and importing *)

(** A payload that does not deserialize changes nothing: [loadState] leaves
    the component as it is, and so does the import, which reports the
    failure.  One that deserializes replaces the state in both: the flags
    are cleared, the message is empty, and the numbers loaded are not
    negative with valid categories.  Without storage, or with nothing
    stored, [loadState] does nothing. *)
Theorem load_and_import (r : Json.parsed) (this : AppComponent) :
  loadState None this = this
  /\ (deserialize r = None ->
      loadState (Some r) this = this
      /\ fst (importOnLoad r this) = this
      /\ snd (importOnLoad r this) <> EmptyString)
  /\ (deserialize r <> None ->
      let loaded := loadState (Some r) this in
      fst (importOnLoad r this) = loaded
      /\ snd (importOnLoad r this) = EmptyString
      /\ allocationClamped loaded = false
      /\ needsIncomeWarning loaded = false
      /\ 0 <= income loaded
      /\ 0 <= interestRate loaded
      /\ 0 <= forecastPeriodValue loaded
      /\ Forall validCategory (categories loaded)).
Proof.
  split; [reflexivity |]. unfold loadState, importOnLoad. split.
  - intros H. rewrite H. repeat split. discriminate.
  - intros H. destruct (deserialize r) as [state |] eqn:E; [| contradiction].
    cbn zeta. cbn [fst snd applyState allocationClamped needsIncomeWarning income
                   interestRate forecastPeriodValue categories].
    assert (Hv : Forall validCategory (BudgetPlannerState.categories state)).
    { destruct r as [| v]; [discriminate |].
      apply deserialize_Some in E. exact (proj2 (proj2 (proj2 (parseState_valid v state E)))). }
    repeat split; try apply Math_max_lb. exact Hv.
Qed.

Lemma load_and_import_witness :
  deserialize (Value (JNum (Fin 7))) = None
  /\ loadState (Some (Value (JNum (Fin 7)))) sixtyThenNew = sixtyThenNew
  /\ deserialize (Value (JArr [])) <> None
  /\ categories (loadState (Some (Value (JArr []))) sixtyThenNew) = [].
Proof.
  destruct (load_and_import (Value (JNum (Fin 7))) sixtyThenNew) as (_ & Hfail & _).
  destruct (load_and_import (Value (JArr [])) sixtyThenNew) as (_ & _ & Hok).
  split; [reflexivity |]. split; [exact (proj1 (Hfail eq_refl)) |].
  split; [discriminate |].
  destruct (Hok ltac:(discriminate)) as (_ & _ & _ & _ & _ & _ & _ & _). reflexivity.
Defined.

(** ** The earlier stages *)

Lemma map_insert {A B} (f : A -> B) (l : list A) (i : nat) (x : A) :
  map f (<[i := x]> l) = <[i := f x]> (map f l).
Proof.
  revert i. induction l as [| y l IH]; intros [| i]; cbn; try reflexivity.
  f_equal. apply IH.
Qed.

(** The current [updateCategoryAmount] and the earlier one throw on the
    same indices and leave the same names, percentages, savings flags and
    component flags; they leave the same component altogether whenever
    there is no income or the headroom cut the amount.  Only the amount of
    an entry that fits may differ. *)
Theorem stages_agree_but_for_the_amount_that_fits
    (this : AppComponent) (index : Z) (value : raw) :
  let earlier := Earlier.updateCategoryAmount index value this in
  let current := updateCategoryAmount index value this in
  map percentage (categories (after earlier)) = map percentage (categories (after current))
  /\ map name (categories (after earlier)) = map name (categories (after current))
  /\ map isSavings (categories (after earlier)) = map isSavings (categories (after current))
  /\ allocationClamped (after earlier) = allocationClamped (after current)
  /\ needsIncomeWarning (after earlier) = needsIncomeWarning (after current)
  /\ income (after earlier) = income (after current)
  /\ (income this <= 0 \/ allocationClamped (after current) = true
      \/ Array.at_ (categories this) index = None ->
      earlier = current).
Proof.
  cbn zeta. unfold Earlier.updateCategoryAmount, updateCategoryAmount.
  destruct (Array.at_ (categories this) index) as [category |] eqn:Hat;
    [| repeat split].
  cbn [income set_categories categories].
  destruct (Qle_bool (income this) 0) eqn:Einc; [repeat split |].
  rewrite <- clamped_choice.
  destruct (Qltb _ _) eqn:Ec.
  - repeat split.
  - cbn [after categories set_categories set_needsIncomeWarning set_allocationClamped
         allocationClamped needsIncomeWarning income].
    unfold Array.set. rewrite !map_insert.
    repeat split.
    intros [H | [H | H]]; [| discriminate | discriminate].
    apply Qle_bool_iff in H. congruence.
Qed.

(** ** Rounding and clamping *)


(** [clampNumber] never exceeds the upper bound; with bounds in order the
    result lies between them, a value between them is returned as it is,
    and clamping twice is clamping once; with the bounds out of order the
    result is the upper bound. *)
Theorem clampNumber_bounds (v lo hi : Q) :
  clampNumber v lo hi <= hi
  /\ (lo <= hi -> lo <= clampNumber v lo hi)
  /\ (lo <= v <= hi -> clampNumber v lo hi == v)
  /\ (lo <= hi -> clampNumber (clampNumber v lo hi) lo hi == clampNumber v lo hi)
  /\ (hi < lo -> clampNumber v lo hi = hi).
Proof.
  split; [apply Math_min_ub |]. split; [intros H; now apply clampNumber_range |].
  split; [apply clampNumber_inside |]. split.
  - intros H. apply clampNumber_inside. now apply clampNumber_range.
  - intros H. unfold clampNumber.
    destruct (Math_max_cases v lo) as [[_ ->] | [Hv ->]];
      [destruct (Math_min_cases lo hi) as [[Hc _] | [_ ->]]
      | destruct (Math_min_cases v hi) as [[Hc _] | [_ ->]]];
      try reflexivity; lra.
Qed.

Lemma clampNumber_bounds_witness :
  clampNumber 150 0 100 == 100
  /\ clampNumber (- (5)) 0 100 == 0
  /\ clampNumber 42 0 100 == 42
  /\ clampNumber 42 100 0 = 0.
Proof.
  split; [vm_compute; reflexivity |]. split; [vm_compute; reflexivity |].
  split.
  - apply (proj1 (proj2 (proj2 (clampNumber_bounds 42 0 100)))). lra.
  - apply (proj2 (proj2 (proj2 (proj2 (clampNumber_bounds 42 100 0))))). lra.
Defined.

(** ** Decimal input *)

Lemma spanDigits_digits (ds : list nat) (rest : string) (acc : Z) :
  Forall (fun d => (d < 10)%nat) ds ->
  startsWithDigit rest = false ->
  spanDigits acc (numeral ds ++ rest) = (numeralValue acc ds, length ds, rest).
Proof.
  intros H Hrest. revert acc. induction H as [| d ds Hd _ IH]; intros acc.
  - cbn [numeral String.append numeralValue length].
    destruct rest as [| c rest]; [reflexivity |].
    cbn [startsWithDigit] in Hrest. cbn [spanDigits]. now rewrite Hrest.
  - destruct (digitChar_facts d Hd) as (H1 & H2 & _).
    cbn [numeral String.append numeralValue length spanDigits].
    rewrite H1, H2, IH. reflexivity.
Qed.

Lemma numeralValue_app (ds1 ds2 : list nat) (acc : Z) :
  numeralValue acc (ds1 ++ ds2) = numeralValue (numeralValue acc ds1) ds2.
Proof.
  revert acc. induction ds1 as [| d ds1 IH]; intros acc; [reflexivity |].
  cbn [app numeralValue]. apply IH.
Qed.

Lemma scanExponent_absent (rest : string) :
  startsExponent rest = false -> scanExponent rest = (0%Z, rest).
Proof.
  intros H. destruct rest as [| c rest]; [reflexivity |].
  cbn [startsExponent] in H. unfold scanExponent. now rewrite H.
Qed.

(** A decimal with a fraction, with or without a minus sign, is read as
    its value, whatever follows it that is neither a digit nor the start of
    an exponent; so [12.50] is 12.5 and [-0.75 kg] is -0.75. *)
Theorem parseNumber_reads_decimals
    (negative : bool) (whole fraction : list nat) (rest : string) :
  whole <> [] ->
  Forall (fun d => (d < 10)%nat) whole ->
  Forall (fun d => (d < 10)%nat) fraction ->
  startsWithDigit rest = false ->
  startsExponent rest = false ->
  let magnitude :=
    inject_Z (numeralValue 0 (whole ++ fraction))
    * Qpower 10 (- Z.of_nat (length fraction)) in
  magnitude < overflowBound ->
  parseNumber
    (RStr ((if negative then "-" else "")
           ++ numeral whole ++ String "." (numeral fraction ++ rest)))
  == (if negative then - magnitude else magnitude).
Proof.
  intros Hne Hw Hf Hd He magnitude Hbound.
  destruct whole as [| d whole]; [contradiction |].
  inversion Hw as [| ? ? Hd0 Hw']; subst.
  destruct (digitChar_facts d Hd0) as (_ & _ & Hws & Hm & Hp & HI).
  assert (Hscan : scanMantissa (numeral (d :: whole) ++ String "." (numeral fraction ++ rest))
                  = Some (numeralValue 0 ((d :: whole) ++ fraction), length fraction, rest)).
  { unfold scanMantissa.
    rewrite (spanDigits_digits (d :: whole) (String "." (numeral fraction ++ rest)) 0
               Hw eq_refl).
    cbn [Ascii.eqb Bool.eqb]. rewrite (spanDigits_digits fraction rest _ Hf Hd).
    rewrite numeralValue_app. reflexivity. }
  assert (Hdouble : forall neg,
             toDouble neg (inject_Z (numeralValue 0 ((d :: whole) ++ fraction))
                           * Qpower 10 (0 - Z.of_nat (length fraction)))
             = Fin (if neg then - (inject_Z (numeralValue 0 ((d :: whole) ++ fraction))
                                   * Qpower 10 (0 - Z.of_nat (length fraction)))
                    else inject_Z (numeralValue 0 ((d :: whole) ++ fraction))
                         * Qpower 10 (0 - Z.of_nat (length fraction)))).
  { intros neg. unfold toDouble.
    replace (Qle_bool overflowBound _) with false; [reflexivity |].
    symmetry. apply Qle_bool_false. exact Hbound. }
  unfold parseNumber, parseFloat. destruct negative.
  - cbn [String.append trimStart isWhiteSpace].
    change (isWhiteSpace "-") with false. cbn iota.
    unfold scanFloat. cbn [Ascii.eqb Bool.eqb].
    cbn [numeral String.append dropPrefix] in *. rewrite HI.
    rewrite Hscan, (scanExponent_absent rest He), Hdouble. reflexivity.
  - cbn [String.append numeral trimStart] in *. rewrite Hws.
    unfold scanFloat. rewrite Hm, Hp. cbn [dropPrefix]. rewrite HI.
    rewrite Hscan, (scanExponent_absent rest He), Hdouble. reflexivity.
Qed.

Lemma parseNumber_reads_decimals_witness :
  parseNumber (RStr "12.50") == 125 # 10
  /\ parseNumber (RStr "-0.75 kg") == - (75 # 100).
Proof.
  split.
  - rewrite (parseNumber_reads_decimals false [1; 2]%nat [5; 0]%nat "");
      [vm_compute; reflexivity | discriminate | repeat constructor
      | repeat constructor | reflexivity | reflexivity | vm_compute; reflexivity].
  - rewrite (parseNumber_reads_decimals true [0]%nat [7; 5]%nat " kg");
      [vm_compute; reflexivity | discriminate | repeat constructor
      | repeat constructor | reflexivity | reflexivity | vm_compute; reflexivity].
Defined.
